(** * Clusterer: the table-building part of [src/clusterer.py]

    A shallow embedding of the three table-building methods of class
    [Clusterer]:

    - [generate_cocktails_and_ingredients_matrix_with_volumes] (lines 22-34)
    - [generate_table_with_cocktails_and_their_main_ingr_type] (lines 36-71)
    - [generate_table_with_cocktails_and_style] (lines 73-92)

    A pandas [DataFrame] is a list of records, in row order.  A missing value
    ([NaN]) of a column is [None].  Numbers are exact rationals ([Q]).
    Comparing two volumes is exact in float64 as well; averaging is not: a
    cell that averages several rows is given here as the exact mean, of which
    the float64 cell is the rounding.  The key columns ([cocktail_name],
    [ingredient_name], [name]) are taken to be present strings.

    The sort of line 55 is pandas' default quicksort, which is not stable:
    the model takes it as a parameter of which only the contract
    [sorts_by_cocktail_name] is known, and every theorem about the primary
    alcohol table holds for every such sort.

    The pandas operations the methods call ([fillna], [pivot_table], [join],
    [merge], [dropna], [sort_values], [drop_duplicates], [reset_index]) and
    the one-hot encoder of the third method are given here by the rows they
    denote, each under its own name.

    The other methods of the class ([transform_matrix], [kmeans_clustering],
    [spectral_clustering] and the plotting methods) hand their arguments to
    numerical scikit-learn estimators and compute nothing themselves; they
    have no counterpart here. *)

From Stdlib Require Import List String Ascii Bool Arith Lia.
From Stdlib Require Import ZArith QArith Qreduction.
From Stdlib Require Import Permutation Sorted.
Import ListNotations.

Local Open Scope string_scope.
Local Open Scope list_scope.

(** ** Input tables *)

(** A row of [self.cocktails]. *)
Record CocktailRecord := mkCocktail {
  name : string;
  glass : option string;
  prep_method : option string;
  strength : option string;
  abv : option Q
}.

(** A row of [self.ingredients].  [type] is the spirit kind. *)
Record IngredientRecord := mkIngredient {
  ingr_name : string;
  type : option string;
  generalized_type : option string
}.

(** A row of [self.cocktails_and_ingredients]. *)
Record CompositionRecord := mkComposition {
  cocktail_name : string;
  ingredient_name : string;
  volume_oz : option Q
}.

(** ** Generic frame operations *)

(** [drop_duplicates(subset=key, keep='first')]: the first row of every key
    stays, in its place. *)
Fixpoint drop_duplicates {A K : Type} (eqk : K -> K -> bool) (key : A -> K)
    (df : list A) : list A :=
  match df with
  | [] => []
  | r :: rest =>
      r :: filter (fun r' => negb (eqk (key r) (key r')))
                  (drop_duplicates eqk key rest)
  end.

(** A stable sort: rows with equal keys keep their order.  [le_key r1 r2] says
    that [r1] may stand before [r2]. *)
Section StableSort.
Context {A : Type} (le_key : A -> A -> bool).

Fixpoint insert_row (r : A) (sorted : list A) : list A :=
  match sorted with
  | [] => [r]
  | h :: rest => if le_key r h then r :: sorted else h :: insert_row r rest
  end.

Definition stable_sort (df : list A) : list A :=
  fold_right insert_row [] df.
End StableSort.

(** Label lookup: the value stored under label [x], as [Series.loc]. *)
Fixpoint at_label {A : Type} (labels : list string) (vals : list A)
    (x : string) : option A :=
  match labels, vals with
  | l :: labels', v :: vals' =>
      if String.eqb l x then Some v else at_label labels' vals' x
  | _, _ => None
  end.

(** The sorted distinct labels of a key column, as [groupby] and [unstack]
    build an axis. *)
Definition unique (l : list string) : list string :=
  drop_duplicates String.eqb (fun s => s) l.

Definition sorted_labels (l : list string) : list string :=
  stable_sort String.leb (unique l).

(** ** The volume matrix (lines 22-34) *)

(** The result of [pivot_table]: row labels, column labels and the cells, row
    by row.  A cell can hold [None] ([NaN]). *)
Record FeatureMatrix := mkMatrix {
  index : list string;
  columns : list string;
  values : list (list (option Q))
}.

(** [matrix.loc[c, i]]; the outer [None] is a [KeyError]. *)
Definition loc (m : FeatureMatrix) (c i : string) : option (option Q) :=
  match at_label (index m) (values m) c with
  | Some row => at_label (columns m) row i
  | None => None
  end.

(** [df.fillna(value)] on the volume column. *)
Definition fillna (value : Q) (df : list CompositionRecord)
    : list CompositionRecord :=
  map (fun r =>
         mkComposition (cocktail_name r) (ingredient_name r)
           (match volume_oz r with
            | Some v => Some v
            | None => Some value
            end)) df.

(** [fillna] on one cell of the pivoted table. *)
Definition fillna_cell (value : Q) (x : option Q) : option Q :=
  match x with
  | Some v => Some v
  | None => Some value
  end.

Definition same_key (c i : string) (r : CompositionRecord) : bool :=
  String.eqb (cocktail_name r) c && String.eqb (ingredient_name r) i.

(** The [volume_oz] values of the group of key [(c, i)], in row order. *)
Definition group (df : list CompositionRecord) (c i : string)
    : list (option Q) :=
  map volume_oz (filter (same_key c i) df).

Fixpoint notna (l : list (option Q)) : list Q :=
  match l with
  | [] => []
  | Some v :: l' => v :: notna l'
  | None :: l' => notna l'
  end.

Definition Qsum (l : list Q) : Q := fold_right Qplus 0%Q l.

(** The aggregation [pivot_table] applies when [aggfunc] is not given:
    ['mean'], which skips [NaN] and is [NaN] on a group without values.  It
    is the exact mean; on a group of one value it is that value, in float64
    too. *)
Definition mean (l : list (option Q)) : option Q :=
  match notna l with
  | [] => None
  | vs => Some (Qred (Qsum vs / inject_Z (Z.of_nat (List.length vs))))
  end.

Definition has_value (x : option Q) : bool :=
  match x with Some _ => true | None => false end.

(** [pivot_table(index='cocktail_name', columns='ingredient_name',
    values='volume_oz', fill_value=...)] with the defaults [aggfunc='mean']
    and [dropna=True]: group by the two keys, average, drop the groups whose
    average is [NaN], unstack the ingredient level and fill the holes.
    [agged] keeps the rows of the surviving groups; the two axes are the
    sorted distinct labels found among them. *)
Definition pivot_table (df : list CompositionRecord) (fill_value : Q)
    : FeatureMatrix :=
  let agged :=
    filter (fun r => has_value (mean (group df (cocktail_name r)
                                              (ingredient_name r)))) df in
  let idx := sorted_labels (map cocktail_name agged) in
  let cols := sorted_labels (map ingredient_name agged) in
  mkMatrix idx cols
    (map (fun c => map (fun i => fillna_cell fill_value (mean (group df c i)))
                       cols) idx).

Definition generate_cocktails_and_ingredients_matrix_with_volumes
    (cocktails_and_ingredients : list CompositionRecord) : FeatureMatrix :=
  let volume_df := fillna (1 # 100) cocktails_and_ingredients in
  pivot_table volume_df 0.

(** ** The primary alcohol table (lines 36-71) *)

(** Lines 43-46: [cocktails_and_ingredients.set_index('cocktail_name')
    .join(cocktails.set_index('name')[['abv']], how='left').reset_index()].
    Every composition row stays, once per cocktail row of its name, with the
    cocktail's [abv]; without such a cocktail row, once with a missing
    [abv]. *)
Definition join_abv (cocktails_and_ingredients : list CompositionRecord)
    (cocktails : list CocktailRecord) : list (CompositionRecord * option Q) :=
  flat_map (fun r =>
              match filter (fun c => String.eqb (name c) (cocktail_name r))
                           cocktails with
              | [] => [(r, None)]
              | matches => map (fun c => (r, abv c)) matches
              end) cocktails_and_ingredients.

(** Lines 48-50: [ingredients[['name', 'type', 'generalized_type']]
    .merge(result_df, left_on='name', right_on='ingredient_name',
    how='inner')], the rows in the order of the left keys. *)
Definition merge_inner (ingredients : list IngredientRecord)
    (result_df : list (CompositionRecord * option Q))
    : list (IngredientRecord * (CompositionRecord * option Q)) :=
  flat_map (fun i =>
              map (fun r => (i, r))
                  (filter (fun r => String.eqb (ingr_name i)
                                               (ingredient_name (fst r)))
                          result_df)) ingredients.

(** A row of [result_df] from line 53 on: the merged columns without
    [name]. *)
Record ResultRow := mkRow {
  row_type : option string;
  row_generalized_type : option string;
  row_cocktail_name : string;
  row_ingredient_name : string;
  row_volume_oz : option Q;
  row_abv : option Q
}.

Definition notna_type (m : IngredientRecord * (CompositionRecord * option Q))
    : bool :=
  match type (fst m) with Some _ => true | None => false end.

(** Line 53: [drop(columns=['name'])]. *)
Definition drop_name (m : IngredientRecord * (CompositionRecord * option Q))
    : ResultRow :=
  let '(i, (r, a)) := m in
  mkRow (type i) (generalized_type i) (cocktail_name r) (ingredient_name r)
        (volume_oz r) a.

Definition cocktail_name_le (r1 r2 : ResultRow) : bool :=
  String.leb (row_cocktail_name r1) (row_cocktail_name r2).

(** Line 55: [sort_values(by='cocktail_name')] runs pandas' default
    [kind='quicksort'], which is not stable: it returns the rows in ascending
    order of the key and promises nothing about the order of rows with the
    same key.  The sort is therefore a parameter of the model, and
    [sorts_by_cocktail_name] is all that is known of it. *)
Definition sorts_by_cocktail_name
    (sort_values : list ResultRow -> list ResultRow) : Prop :=
  forall df,
    Permutation (sort_values df) df /\
    StronglySorted (fun r1 r2 => cocktail_name_le r1 r2 = true)
                   (sort_values df).

(** One sort that meets this contract: the stable one, which leaves the rows
    of a cocktail in the order they had. *)
Definition sort_stably : list ResultRow -> list ResultRow :=
  stable_sort cocktail_name_le.

(** [result_df] as it stands after line 55: joined (43-50), without the rows
    whose [type] is missing (52), without [name] (53), sorted by
    [cocktail_name] (55) by [sort_values]. *)
Definition result_df (sort_values : list ResultRow -> list ResultRow)
    (cocktails : list CocktailRecord)
    (ingredients : list IngredientRecord)
    (cocktails_and_ingredients : list CompositionRecord) : list ResultRow :=
  let joined := join_abv cocktails_and_ingredients cocktails in
  let merged := merge_inner ingredients joined in
  let typed := filter notna_type merged in
  sort_values (map drop_name typed).

(** Line 58: [result_df['generalized_type'] == "Alcoholic"]. *)
Definition is_alcoholic (r : ResultRow) : bool :=
  match row_generalized_type r with
  | Some g => String.eqb g "Alcoholic"%string
  | None => false
  end.

(** Descending [volume_oz] with [NaN] last ([na_position='last']): [v1] may
    stand before [v2]. *)
Definition volume_desc_le (v1 v2 : option Q) : bool :=
  match v1, v2 with
  | Some a, Some b => Qle_bool b a
  | Some _, None => true
  | None, Some _ => false
  | None, None => true
  end.

(** Line 59: the order of [sort_values(by=['cocktail_name', 'volume_oz'],
    ascending=[True, False])]. *)
Definition name_volume_le (r1 r2 : ResultRow) : bool :=
  match String.compare (row_cocktail_name r1) (row_cocktail_name r2) with
  | Lt => true
  | Eq => volume_desc_le (row_volume_oz r1) (row_volume_oz r2)
  | Gt => false
  end.

(** Lines 57-64: one row [(cocktail_name, primary_alcohol_type)] per cocktail
    that has an alcoholic row.  Unlike the sort of line 55, the sort of line
    59 has two keys, for which pandas sorts stably: rows that agree on both
    keys keep the order they have in [result_df]. *)
Definition max_volume_type_df (result_df : list ResultRow)
    : list (string * option string) :=
  map (fun r => (row_cocktail_name r, row_type r))
      (drop_duplicates String.eqb row_cocktail_name
         (stable_sort name_volume_le (filter is_alcoholic result_df))).

(** Line 66: [result_df.merge(max_volume_type_df, on='cocktail_name',
    how='left')]; an unmatched row gets a missing [primary_alcohol_type]. *)
Definition merge_left (result_df : list ResultRow)
    (max_volume_type_df : list (string * option string))
    : list (ResultRow * option string) :=
  flat_map (fun r =>
              match filter (fun m => String.eqb (fst m) (row_cocktail_name r))
                           max_volume_type_df with
              | [] => [(r, None)]
              | matches => map (fun m => (r, snd m)) matches
              end) result_df.

(** A row of the returned table: the old row label that [reset_index] turns
    into a column, and the two columns kept at line 68. *)
Record PrimaryAlcoholRow := mkPrimary {
  old_index : nat;
  primary_alcohol_type : option string;
  primary_cocktail_name : string
}.

Definition option_string_eqb (a b : option string) : bool :=
  match a, b with
  | Some x, Some y => String.eqb x y
  | None, None => true
  | _, _ => false
  end.

(** Equality of the two data columns, as [drop_duplicates()] compares rows
    (two missing values are equal). *)
Definition same_row (a b : option string * string) : bool :=
  option_string_eqb (fst a) (fst b) && String.eqb (snd a) (snd b).

Definition generate_table_with_cocktails_and_their_main_ingr_type
    (sort_values : list ResultRow -> list ResultRow)
    (cocktails : list CocktailRecord) (ingredients : list IngredientRecord)
    (cocktails_and_ingredients : list CompositionRecord)
    : list PrimaryAlcoholRow :=
  let df :=
    result_df sort_values cocktails ingredients cocktails_and_ingredients in
  let merged := merge_left df (max_volume_type_df df) in
  let projected :=
    map (fun m => (snd m, row_cocktail_name (fst m))) merged in
  let labelled := combine (seq 0 (List.length projected)) projected in
  let deduplicated := drop_duplicates same_row snd labelled in
  map (fun l => mkPrimary (fst l) (fst (snd l)) (snd (snd l))) deduplicated.

(** ** Prop-level reading of the volume order *)

(** [volume_lt v1 v2]: [v1] is a strictly smaller volume than [v2]; a missing
    volume is below every present one. *)
Definition volume_lt (v1 v2 : option Q) : Prop :=
  match v1, v2 with
  | Some a, Some b => (a < b)%Q
  | None, Some _ => True
  | _, None => False
  end.

Definition volume_le (v1 v2 : option Q) : Prop :=
  match v1, v2 with
  | Some a, Some b => (a <= b)%Q
  | None, _ => True
  | Some _, None => False
  end.

(** The present values of a group of the filled table: the volumes of the
    rows of that key, [0.01] standing for a missing one. *)
Definition filled_volumes (df : list CompositionRecord) (c i : string)
    : list Q :=
  map (fun r => match volume_oz r with Some v => v | None => (1 # 100)%Q end)
      (filter (same_key c i) df).

(** The first row of the largest volume of a list of rows: what heads the
    rows of one cocktail after the sort of line 59. *)
Fixpoint first_largest (l : list ResultRow) : option ResultRow :=
  match l with
  | [] => None
  | r :: rest =>
      match first_largest rest with
      | None => Some r
      | Some b =>
          if volume_desc_le (row_volume_oz r) (row_volume_oz b)
          then Some r else Some b
      end
  end.

Definition of_cocktail (c : string) (r : ResultRow) : bool :=
  String.eqb (row_cocktail_name r) c.

(** The alcoholic rows of cocktail [c] in a table, in row order. *)
Definition alcoholic_rows (df : list ResultRow) (c : string)
    : list ResultRow :=
  filter (fun r => is_alcoholic r && of_cocktail c r) df.

(** The primary alcohol type of cocktail [c] in a table: the [type] of the
    first of its alcoholic rows of the largest volume, missing without an
    alcoholic row. *)
Definition assigned_type (df : list ResultRow) (c : string) : option string :=
  match first_largest (filter (of_cocktail c) (filter is_alcoholic df)) with
  | Some x => row_type x
  | None => None
  end.

(** ** The specification's readings, for comparison with the code *)

(** Last-wins resolution of duplicates: the value of the last row of the
    group [(c, i)] of the table handed to [pivot_table]. *)
Definition last_seen (df : list CompositionRecord) (c i : string)
    : option Q :=
  last (group (fillna (1 # 100) df) c i) None.

Definition keeps_last_value (df : list CompositionRecord) : Prop :=
  forall c i v,
    last_seen df c i = Some v ->
    exists w,
      loc (generate_cocktails_and_ingredients_matrix_with_volumes df) c i
        = Some (Some w) /\ (w == v)%Q.

(** The alcoholic ingredient of cocktail [c] with the largest volume, first
    among equals, read off the inner join of lines 48-50 as it is. *)
Definition largest_alcoholic_ingredient (cocktails : list CocktailRecord)
    (ingredients : list IngredientRecord)
    (cocktails_and_ingredients : list CompositionRecord) (c : string)
    : option ResultRow :=
  let joined :=
    map drop_name
        (merge_inner ingredients
           (join_abv cocktails_and_ingredients cocktails)) in
  hd_error
    (stable_sort (fun r1 r2 => volume_desc_le (row_volume_oz r1)
                                              (row_volume_oz r2))
       (filter (fun r => is_alcoholic r && String.eqb (row_cocktail_name r) c)
               joined)).

(** The primary alcohol types the returned table lists for cocktail [c]. *)
Definition primary_types_of (out : list PrimaryAlcoholRow) (c : string)
    : list (option string) :=
  map primary_alcohol_type
      (filter (fun o => String.eqb (primary_cocktail_name o) c) out).

Definition assigns_type_of_largest_alcoholic
    (sort_values : list ResultRow -> list ResultRow)
    (cocktails : list CocktailRecord) (ingredients : list IngredientRecord)
    (cocktails_and_ingredients : list CompositionRecord) : Prop :=
  forall c r,
    largest_alcoholic_ingredient cocktails ingredients
      cocktails_and_ingredients c = Some r ->
    primary_types_of
      (generate_table_with_cocktails_and_their_main_ingr_type
         sort_values cocktails ingredients cocktails_and_ingredients) c
    = [row_type r].

(** Every cocktail of the inner join of lines 48-50 without an alcoholic
    ingredient is listed with a missing primary alcohol type. *)
Definition keeps_cocktails_without_alcohol
    (sort_values : list ResultRow -> list ResultRow)
    (cocktails : list CocktailRecord) (ingredients : list IngredientRecord)
    (cocktails_and_ingredients : list CompositionRecord) : Prop :=
  let joined :=
    map drop_name
        (merge_inner ingredients
           (join_abv cocktails_and_ingredients cocktails)) in
  forall c,
    (exists r, In r joined /\ row_cocktail_name r = c) ->
    (forall r, In r joined -> row_cocktail_name r = c ->
               is_alcoholic r = false) ->
    primary_types_of
      (generate_table_with_cocktails_and_their_main_ingr_type
         sort_values cocktails ingredients cocktails_and_ingredients) c
    = [None].

(** ** Sample tables *)

Definition negroni_twice : list CompositionRecord :=
  [ mkComposition "Negroni" "Gin" (Some 1%Q);
    mkComposition "Negroni" "Gin" (Some 3%Q);
    mkComposition "Negroni" "Campari" None;
    mkComposition "Americano" "Campari" (Some (3 # 2)%Q) ].

Definition bar_ingredients : list IngredientRecord :=
  [ mkIngredient "Gin" (Some "Gin") (Some "Alcoholic");
    mkIngredient "Tonic" (Some "Mixer") (Some "Non-alcoholic");
    mkIngredient "Vermouth" (Some "Fortified Wine") (Some "Alcoholic") ].

Definition bar_cocktails : list CocktailRecord :=
  [ mkCocktail "Gin and Tonic" (Some "Highball") (Some "Build") (Some "Weak")
               None ].

Definition gin_and_tonic : list CompositionRecord :=
  [ mkComposition "Gin and Tonic" "Gin" (Some 2%Q);
    mkComposition "Gin and Tonic" "Tonic" (Some 4%Q);
    mkComposition "Gin and Tonic" "Vermouth" (Some 1%Q);
    mkComposition "Lemonade" "Tonic" (Some 5%Q) ].

(** An ingredient table in which the [type] of two ingredients is
    missing. *)
Definition untyped_ingredients : list IngredientRecord :=
  [ mkIngredient "Gin" None (Some "Alcoholic");
    mkIngredient "Tonic" None (Some "Non-alcoholic");
    mkIngredient "Vermouth" (Some "Fortified Wine") (Some "Alcoholic") ].

Definition martini_and_tonic : list CompositionRecord :=
  [ mkComposition "Martini" "Gin" (Some 2%Q);
    mkComposition "Martini" "Vermouth" (Some 1%Q);
    mkComposition "Tonic Water" "Tonic" (Some 4%Q) ].

(** ** Ties between alcoholic ingredients *)



(** ** The style matrix (lines 73-92) *)

(** The present values of a categorical column. *)
Fixpoint present (col : list (option string)) : list string :=
  match col with
  | [] => []
  | Some v :: col' => v :: present col'
  | None :: col' => present col'
  end.

Definition has_missing (col : list (option string)) : bool :=
  existsb (fun v => match v with None => true | Some _ => false end) col.

(** [OneHotEncoder.categories_] of one fitted column: its distinct values in
    ascending order, a missing value being a category of its own that comes
    last. *)
Definition categories (col : list (option string)) : list (option string) :=
  map Some (sorted_labels (present col))
  ++ (if has_missing col then [None] else []).

(** The cell of category [cat] in the encoding of value [v]. *)
Definition indicator (v cat : option string) : Q :=
  if option_string_eqb cat v then 1%Q else 0%Q.

(** [OneHotEncoder.transform] on one column: one indicator per category. *)
Definition one_hot_encode (cats : list (option string)) (v : option string)
    : list Q :=
  map (indicator v) cats.

(** [get_feature_names_out]: the feature, an underscore, the category. *)
Definition feature_name (feature : string) (cat : option string) : string :=
  (feature ++ "_" ++ match cat with Some v => v | None => "nan" end)%string.

(** The frame [encoded_df]: its column labels and its rows, which stand in
    the order of the rows of [self.cocktails] and carry their row labels. *)
Record StyleMatrix := mkStyle {
  style_columns : list string;
  style_values : list (list Q)
}.

(** Lines 79-92.  The encoder is fitted on the very columns it transforms, so
    [handle_unknown='ignore'] never applies.  On a table without rows
    [fit_transform] raises a [ValueError]: the result is [None]. *)
Definition generate_table_with_cocktails_and_style
    (cocktails : list CocktailRecord) : option StyleMatrix :=
  match cocktails with
  | [] => None
  | _ :: _ =>
      let glasses := categories (map glass cocktails) in
      let methods := categories (map prep_method cocktails) in
      let strengths := categories (map strength cocktails) in
      Some (mkStyle
              (map (feature_name "glass") glasses
               ++ map (feature_name "prep_method") methods
               ++ map (feature_name "strength") strengths)
              (map (fun c => one_hot_encode glasses (glass c)
                             ++ one_hot_encode methods (prep_method c)
                             ++ one_hot_encode strengths (strength c))
                   cocktails))
  end.

Definition option_string_dec (a b : option string) : {a = b} + {a <> b}.
Proof. decide equality. apply string_dec. Defined.

(** The number of distinct values in a column, a missing value counting as
    one value. *)
Definition distinct_values (col : list (option string)) : nat :=
  List.length (nodup option_string_dec col).

(** A vector with a single 1 among zeros. *)
Definition one_hot (v : list Q) : Prop :=
  exists before after,
    v = repeat 0%Q before ++ 1%Q :: repeat 0%Q after.

Definition three_cocktails : list CocktailRecord :=
  [ mkCocktail "Negroni" (Some "Rocks") (Some "Stir") (Some "Strong") None;
    mkCocktail "Gin and Tonic" (Some "Highball") (Some "Build") (Some "Weak")
               (Some (8 # 1)%Q);
    mkCocktail "Mojito" (Some "Highball") None (Some "Weak") None ].

(** * Properties *)

(** ** Frame operations *)

Lemma filter_all {A : Type} (p : A -> bool) (l : list A) :
  (forall x, In x l -> p x = true) -> filter p l = l.
Proof.
  induction l as [|a l IH]; intros H; simpl; [reflexivity|].
  rewrite (H a (or_introl eq_refl)), IH; [reflexivity|].
  intros x Hx. apply H. now right.
Qed.

Lemma filter_none {A : Type} (p : A -> bool) (l : list A) :
  (forall x, In x l -> p x = false) -> filter p l = [].
Proof.
  induction l as [|a l IH]; intros H; simpl; [reflexivity|].
  rewrite (H a (or_introl eq_refl)). apply IH.
  intros x Hx. apply H. now right.
Qed.

Lemma filter_filter_implied {A : Type} (p q : A -> bool) (l : list A) :
  (forall x, In x l -> p x = true -> q x = true) ->
  filter p (filter q l) = filter p l.
Proof.
  induction l as [|a l IH]; intros H; simpl; [reflexivity|].
  assert (IH' : filter p (filter q l) = filter p l)
    by (apply IH; intros x Hx; apply H; now right).
  destruct (q a) eqn:Hq; simpl.
  - now rewrite IH'.
  - destruct (p a) eqn:Hp; [|exact IH'].
    rewrite (H a (or_introl eq_refl) Hp) in Hq. discriminate.
Qed.

Lemma drop_duplicates_incl {A K : Type} (eqk : K -> K -> bool) (key : A -> K)
    (l : list A) (x : A) :
  In x (drop_duplicates eqk key l) -> In x l.
Proof.
  induction l as [|a l IH]; simpl; [tauto|].
  intros [->|H]; [now left|].
  apply filter_In in H. right. apply IH, H.
Qed.

Lemma unique_In (l : list string) (x : string) : In x (unique l) <-> In x l.
Proof.
  split; [apply drop_duplicates_incl|].
  unfold unique. induction l as [|a l IH]; simpl; [tauto|].
  intros [->|H]; [now left|].
  destruct (String.eqb_spec a x) as [->|Hne]; [now left|].
  right. apply filter_In. split; [now apply IH|].
  apply negb_true_iff. now apply String.eqb_neq.
Qed.

Lemma unique_NoDup (l : list string) : NoDup (unique l).
Proof.
  unfold unique. induction l as [|a l IH]; simpl; constructor.
  - intros H. apply filter_In in H. destruct H as [_ H].
    rewrite String.eqb_refl in H. discriminate.
  - now apply NoDup_filter.
Qed.

Lemma insert_row_perm {A : Type} (le_key : A -> A -> bool) (r : A)
    (l : list A) :
  Permutation (insert_row le_key r l) (r :: l).
Proof.
  induction l as [|h l IH]; simpl; [reflexivity|].
  destruct (le_key r h); [reflexivity|].
  rewrite IH. apply perm_swap.
Qed.

Lemma stable_sort_perm {A : Type} (le_key : A -> A -> bool) (l : list A) :
  Permutation (stable_sort le_key l) l.
Proof.
  induction l as [|a l IH]; simpl; [reflexivity|].
  rewrite insert_row_perm. now constructor.
Qed.

Lemma stable_sort_In {A : Type} (le_key : A -> A -> bool) (l : list A)
    (x : A) :
  In x (stable_sort le_key l) <-> In x l.
Proof.
  split; apply Permutation_in;
    [|symmetry]; apply stable_sort_perm.
Qed.

Lemma sorted_labels_In (l : list string) (x : string) :
  In x (sorted_labels l) <-> In x l.
Proof.
  unfold sorted_labels. rewrite stable_sort_In. apply unique_In.
Qed.

Lemma sorted_labels_NoDup (l : list string) : NoDup (sorted_labels l).
Proof.
  unfold sorted_labels.
  eapply Permutation_NoDup; [symmetry; apply stable_sort_perm|].
  apply unique_NoDup.
Qed.

Lemma at_label_map {A : Type} (f : string -> A) (labels : list string)
    (x : string) :
  In x labels -> at_label labels (map f labels) x = Some (f x).
Proof.
  induction labels as [|l labels IH]; simpl; [tauto|].
  intros H. destruct (String.eqb_spec l x) as [->|Hne]; [reflexivity|].
  apply IH. destruct H as [H|H]; [contradiction|exact H].
Qed.

(** ** The volume matrix *)

Lemma loc_pivot_table (df : list CompositionRecord) (fill_value : Q)
    (c i : string) :
  In c (index (pivot_table df fill_value)) ->
  In i (columns (pivot_table df fill_value)) ->
  loc (pivot_table df fill_value) c i
  = Some (fillna_cell fill_value (mean (group df c i))).
Proof.
  unfold loc, pivot_table. cbn [index columns values]. intros Hc Hi.
  rewrite (at_label_map _ _ c Hc).
  now rewrite (at_label_map _ _ i Hi).
Qed.

Lemma mean_has_value (l : list (option Q)) (v : Q) :
  In (Some v) l -> has_value (mean l) = true.
Proof.
  intros H. unfold mean.
  assert (Hn : In v (notna l)).
  { induction l as [|[w|] l IH]; simpl in *; [tauto| |].
    - destruct H as [H|H]; [injection H as ->; now left|right; auto].
    - destruct H as [H|H]; [discriminate|auto]. }
  destruct (notna l); [destruct Hn|reflexivity].
Qed.

Lemma same_key_iff (c i : string) (r : CompositionRecord) :
  same_key c i r = true <-> cocktail_name r = c /\ ingredient_name r = i.
Proof.
  unfold same_key. rewrite andb_true_iff, !String.eqb_eq. tauto.
Qed.

(** After [fillna] no group is dropped by [pivot_table]. *)
Lemma fillna_groups_have_value (e : Q) (df : list CompositionRecord)
    (r : CompositionRecord) :
  In r (fillna e df) ->
  has_value (mean (group (fillna e df) (cocktail_name r) (ingredient_name r)))
  = true.
Proof.
  intros Hr.
  assert (Hv : exists v, volume_oz r = Some v).
  { unfold fillna in Hr. apply in_map_iff in Hr.
    destruct Hr as [r0 [<- _]]. cbn. destruct (volume_oz r0); eauto. }
  destruct Hv as [v Hv]. apply (mean_has_value _ v).
  unfold group. rewrite <- Hv. apply in_map. apply filter_In.
  split; [exact Hr|]. now apply same_key_iff.
Qed.

Lemma fillna_cocktail_names (e : Q) (df : list CompositionRecord) :
  map cocktail_name (fillna e df) = map cocktail_name df.
Proof. unfold fillna. rewrite map_map. reflexivity. Qed.

Lemma fillna_ingredient_names (e : Q) (df : list CompositionRecord) :
  map ingredient_name (fillna e df) = map ingredient_name df.
Proof. unfold fillna. rewrite map_map. reflexivity. Qed.

Lemma volume_matrix_index (df : list CompositionRecord) :
  index (generate_cocktails_and_ingredients_matrix_with_volumes df)
  = sorted_labels (map cocktail_name df).
Proof.
  unfold generate_cocktails_and_ingredients_matrix_with_volumes, pivot_table.
  cbn [index]. rewrite filter_all by apply fillna_groups_have_value.
  now rewrite fillna_cocktail_names.
Qed.

Lemma volume_matrix_columns (df : list CompositionRecord) :
  columns (generate_cocktails_and_ingredients_matrix_with_volumes df)
  = sorted_labels (map ingredient_name df).
Proof.
  unfold generate_cocktails_and_ingredients_matrix_with_volumes, pivot_table.
  cbn [columns]. rewrite filter_all by apply fillna_groups_have_value.
  now rewrite fillna_ingredient_names.
Qed.

Lemma notna_group_fillna (df : list CompositionRecord) (c i : string) :
  notna (group (fillna (1 # 100) df) c i) = filled_volumes df c i.
Proof.
  unfold group, filled_volumes, fillna.
  induction df as [|r df IH]; [reflexivity|].
  cbn [map filter]. unfold same_key at 1 3. cbn [cocktail_name ingredient_name].
  fold (same_key c i r). destruct (same_key c i r); [|exact IH].
  cbn [map volume_oz]. destruct (volume_oz r); cbn [notna]; now rewrite IH.
Qed.

Lemma volume_matrix_loc (df : list CompositionRecord) (c i : string) :
  In c (map cocktail_name df) -> In i (map ingredient_name df) ->
  loc (generate_cocktails_and_ingredients_matrix_with_volumes df) c i
  = Some (fillna_cell 0 (mean (group (fillna (1 # 100) df) c i))).
Proof.
  intros Hc Hi.
  apply loc_pivot_table.
  - fold (generate_cocktails_and_ingredients_matrix_with_volumes df).
    rewrite volume_matrix_index. now apply sorted_labels_In.
  - fold (generate_cocktails_and_ingredients_matrix_with_volumes df).
    rewrite volume_matrix_columns. now apply sorted_labels_In.
Qed.

Lemma length_pos_inject (A : Type) (l : list A) :
  l <> [] -> ~ (inject_Z (Z.of_nat (List.length l)) == 0)%Q.
Proof.
  intros Hl H. destruct l as [|a l]; [now apply Hl|].
  unfold Qeq in H. cbn [Qnum Qden inject_Z] in H.
  rewrite Z.mul_1_r in H. cbn [List.length] in H. lia.
Qed.

Lemma Qsum_constant (e : Q) (l : list Q) :
  (forall x, In x l -> x = e) ->
  (Qsum l == inject_Z (Z.of_nat (List.length l)) * e)%Q.
Proof.
  induction l as [|a l IH]; intros H.
  - cbn. ring.
  - cbn [Qsum fold_right List.length]. fold (Qsum l).
    rewrite IH by (intros x Hx; apply H; now right).
    rewrite (H a (or_introl eq_refl)).
    rewrite Nat2Z.inj_succ. unfold Z.succ. rewrite inject_Z_plus. ring.
Qed.

Lemma filled_volumes_nonempty (df : list CompositionRecord) (c i : string) :
  filled_volumes df c i <> [] ->
  exists r, In r df /\ cocktail_name r = c /\ ingredient_name r = i.
Proof.
  unfold filled_volumes. intros H.
  destruct (filter (same_key c i) df) as [|r l] eqn:Hf; [now destruct H|].
  assert (Hr : In r (filter (same_key c i) df)) by (rewrite Hf; now left).
  apply filter_In in Hr. destruct Hr as [Hr Hk].
  apply same_key_iff in Hk. now exists r.
Qed.

(** C1 (as amended): a cell of the volume matrix whose (cocktail, ingredient)
    pair occurs in the compositions holds the arithmetic mean of the volumes
    of all the rows of that pair, a missing volume counting as 0.01: the
    cell times the number of rows equals the sum of the volumes. *)
Theorem duplicate_rows_are_averaged (df : list CompositionRecord)
    (c i : string) :
  filled_volumes df c i <> [] ->
  exists v,
    loc (generate_cocktails_and_ingredients_matrix_with_volumes df) c i
      = Some (Some v) /\
    (v * inject_Z (Z.of_nat (List.length (filled_volumes df c i)))
       == Qsum (filled_volumes df c i))%Q.
Proof.
  intros Hne.
  destruct (filled_volumes_nonempty df c i Hne) as [r [Hr [Hc Hi]]].
  rewrite volume_matrix_loc
    by (subst; now apply in_map).
  unfold mean. rewrite notna_group_fillna.
  pose proof (length_pos_inject Q _ Hne) as Hlen.
  destruct (filled_volumes df c i) as [|q l] eqn:Hvs; [now destruct Hne|].
  eexists. split; [reflexivity|].
  rewrite Qred_correct. field. exact Hlen.
Qed.

Lemma duplicate_rows_are_averaged_witness :
  filled_volumes negroni_twice "Negroni" "Gin" <> [] /\
  exists v,
    loc (generate_cocktails_and_ingredients_matrix_with_volumes negroni_twice)
        "Negroni" "Gin" = Some (Some v) /\
    (v * inject_Z (Z.of_nat
                     (List.length (filled_volumes negroni_twice
                                     "Negroni" "Gin")))
       == Qsum (filled_volumes negroni_twice "Negroni" "Gin"))%Q.
Proof.
  assert (H : filled_volumes negroni_twice "Negroni" "Gin" <> [])
    by (vm_compute; discriminate).
  split; [exact H|].
  exact (duplicate_rows_are_averaged negroni_twice "Negroni" "Gin" H).
Defined.

(** C1, counterexample: with the rows (Negroni, Gin, 1) and (Negroni, Gin, 3)
    the cell holds 2, not the last value 3. *)
Lemma last_value_not_kept : ~ keeps_last_value negroni_twice.
Proof.
  intros H.
  destruct (H "Negroni" "Gin" 3%Q eq_refl) as [w [Hloc Hw]].
  vm_compute in Hloc. injection Hloc as <-.
  vm_compute in Hw. discriminate.
Qed.

(** C3: the volume matrix has exactly one row per cocktail of the
    compositions and is dense; the table that is pivoted is the input with
    every missing volume replaced by 0.01 (so a pair whose volumes are all
    missing gets the cell 0.01); and the cell of a row and a column whose pair
    does not occur in the compositions is the number 0, not a missing
    value. *)
Theorem volume_matrix_rows_epsilon_and_zero (df : list CompositionRecord) :
  let M := generate_cocktails_and_ingredients_matrix_with_volumes df in
  (NoDup (index M) /\
   (forall c, In c (index M) <-> exists r, In r df /\ cocktail_name r = c) /\
   List.length (values M) = List.length (index M) /\
   Forall (fun row => List.length row = List.length (columns M)) (values M))
  /\
  (M = pivot_table (fillna (1 # 100) df) 0 /\
   Forall2 (fun r r' =>
              cocktail_name r' = cocktail_name r /\
              ingredient_name r' = ingredient_name r /\
              volume_oz r' = Some (match volume_oz r with
                                   | Some v => v
                                   | None => (1 # 100)%Q
                                   end))
           df (fillna (1 # 100) df) /\
   (forall c i,
      (exists r, In r df /\ cocktail_name r = c /\ ingredient_name r = i) ->
      (forall r, In r df -> cocktail_name r = c -> ingredient_name r = i ->
                 volume_oz r = None) ->
      loc M c i = Some (Some (1 # 100)%Q)))
  /\
  (forall c i,
     In c (index M) -> In i (columns M) ->
     (forall r, In r df -> ~ (cocktail_name r = c /\ ingredient_name r = i)) ->
     loc M c i = Some (Some 0%Q)).
Proof.
  intros M. repeat split.
  - subst M. rewrite volume_matrix_index. apply sorted_labels_NoDup.
  - subst M. rewrite volume_matrix_index, sorted_labels_In, in_map_iff.
    intros [r [Hc Hr]]. now exists r.
  - subst M. rewrite volume_matrix_index, sorted_labels_In, in_map_iff.
    intros [r [Hr Hc]]. now exists r.
  - subst M.
    unfold generate_cocktails_and_ingredients_matrix_with_volumes, pivot_table.
    cbn [index values]. now rewrite length_map.
  - subst M.
    unfold generate_cocktails_and_ingredients_matrix_with_volumes, pivot_table.
    cbn [columns values]. apply Forall_forall. intros row Hrow.
    apply in_map_iff in Hrow. destruct Hrow as [c [<- _]].
    now rewrite length_map.
  - unfold fillna. induction df as [|r df IH]; cbn [map]; constructor.
    + cbn. destruct (volume_oz r); auto.
    + exact IH.
  - intros c i [r [Hr [Hc Hi]]] Hmissing. subst M.
    rewrite volume_matrix_loc by (subst; now apply in_map).
    unfold mean. rewrite notna_group_fillna.
    assert (Hall : forall x, In x (filled_volumes df c i) -> x = (1 # 100)%Q).
    { unfold filled_volumes. intros x Hx. apply in_map_iff in Hx.
      destruct Hx as [r0 [<- Hr0]]. apply filter_In in Hr0.
      destruct Hr0 as [Hr0 Hk]. apply same_key_iff in Hk.
      now rewrite (Hmissing r0 Hr0 (proj1 Hk) (proj2 Hk)). }
    assert (Hne : filled_volumes df c i <> []).
    { unfold filled_volumes. intros Hnil. apply map_eq_nil in Hnil.
      assert (Hin : In r (filter (same_key c i) df))
        by (apply filter_In; split; [exact Hr|now apply same_key_iff]).
      rewrite Hnil in Hin. destruct Hin. }
    pose proof (Qsum_constant _ _ Hall) as Hsum.
    pose proof (length_pos_inject Q _ Hne) as Hlen.
    destruct (filled_volumes df c i) as [|q l] eqn:Hvs; [now destruct Hne|].
    cbn [fillna_cell]. do 2 f_equal.
    change (1 # 100)%Q with (Qred (1 # 100)) at 1. apply Qred_complete.
    rewrite Hsum. field. exact Hlen.
  - intros c i Hc Hi Habsent. subst M.
    rewrite volume_matrix_index, sorted_labels_In in Hc.
    rewrite volume_matrix_columns, sorted_labels_In in Hi.
    rewrite (volume_matrix_loc df c i Hc Hi).
    unfold mean. rewrite notna_group_fillna. unfold filled_volumes.
    rewrite filter_none; [reflexivity|].
    intros r Hr. destruct (same_key c i r) eqn:Hk; [|reflexivity].
    apply same_key_iff in Hk. now destruct (Habsent r Hr).
Qed.

(** ** Order on strings and on sort keys *)

Lemma ascii_compare_refl (a : ascii) : Ascii.compare a a = Eq.
Proof. unfold Ascii.compare. apply N.compare_refl. Qed.

Lemma ascii_compare_lt_trans (a b c : ascii) :
  Ascii.compare a b = Lt -> Ascii.compare b c = Lt -> Ascii.compare a c = Lt.
Proof.
  unfold Ascii.compare. rewrite !N.compare_lt_iff. apply N.lt_trans.
Qed.

Lemma string_compare_refl (s : string) : String.compare s s = Eq.
Proof.
  induction s as [|a s IH]; simpl; [reflexivity|].
  now rewrite ascii_compare_refl.
Qed.

Lemma string_compare_lt_trans (s1 s2 s3 : string) :
  String.compare s1 s2 = Lt -> String.compare s2 s3 = Lt ->
  String.compare s1 s3 = Lt.
Proof.
  revert s2 s3.
  induction s1 as [|a1 s1 IH]; intros [|a2 s2] [|a3 s3]; simpl;
    try discriminate; try reflexivity.
  destruct (Ascii.compare a1 a2) eqn:H12; try discriminate;
    destruct (Ascii.compare a2 a3) eqn:H23; try discriminate; intros Ha Hb.
  - apply Ascii.compare_eq_iff in H12, H23. subst.
    rewrite ascii_compare_refl. now apply (IH s2).
  - apply Ascii.compare_eq_iff in H12. subst. now rewrite H23.
  - apply Ascii.compare_eq_iff in H23. subst. now rewrite H12.
  - now rewrite (ascii_compare_lt_trans _ _ _ H12 H23).
Qed.

Lemma Qle_bool_false (a b : Q) : Qle_bool a b = false <-> (b < a)%Q.
Proof.
  split; intros H.
  - apply Qnot_le_lt. intros Hle. apply Qle_bool_iff in Hle. congruence.
  - destruct (Qle_bool a b) eqn:E; [|reflexivity].
    apply Qle_bool_iff in E. now apply Qlt_not_le in H.
Qed.

Lemma volume_desc_le_true (v1 v2 : option Q) :
  volume_desc_le v1 v2 = true <-> volume_le v2 v1.
Proof.
  destruct v1 as [a|], v2 as [b|]; simpl;
    try (split; [trivial|reflexivity]); try (split; [discriminate|tauto]).
  apply Qle_bool_iff.
Qed.

Lemma volume_desc_le_false (v1 v2 : option Q) :
  volume_desc_le v1 v2 = false <-> volume_lt v1 v2.
Proof.
  destruct v1 as [a|], v2 as [b|]; simpl;
    try (split; [trivial|reflexivity]); try (split; [discriminate|tauto]).
  apply Qle_bool_false.
Qed.

Lemma volume_le_trans (v1 v2 v3 : option Q) :
  volume_le v1 v2 -> volume_le v2 v3 -> volume_le v1 v3.
Proof.
  destruct v1, v2, v3; simpl; try tauto. apply Qle_trans.
Qed.

Lemma volume_lt_le (v1 v2 : option Q) : volume_lt v1 v2 -> volume_le v1 v2.
Proof. destruct v1, v2; simpl; try tauto. apply Qlt_le_weak. Qed.

Lemma volume_desc_le_trans (v1 v2 v3 : option Q) :
  volume_desc_le v1 v2 = true -> volume_desc_le v2 v3 = true ->
  volume_desc_le v1 v3 = true.
Proof.
  rewrite !volume_desc_le_true. intros H12 H23.
  now apply (volume_le_trans _ v2).
Qed.

Lemma volume_desc_le_total (v1 v2 : option Q) :
  volume_desc_le v1 v2 = false -> volume_desc_le v2 v1 = true.
Proof.
  rewrite volume_desc_le_false, volume_desc_le_true. apply volume_lt_le.
Qed.

Lemma name_volume_le_same (r1 r2 : ResultRow) :
  row_cocktail_name r1 = row_cocktail_name r2 ->
  name_volume_le r1 r2 = volume_desc_le (row_volume_oz r1) (row_volume_oz r2).
Proof.
  unfold name_volume_le. intros ->. now rewrite string_compare_refl.
Qed.

Lemma name_volume_le_trans (r1 r2 r3 : ResultRow) :
  name_volume_le r1 r2 = true -> name_volume_le r2 r3 = true ->
  name_volume_le r1 r3 = true.
Proof.
  unfold name_volume_le.
  destruct (String.compare (row_cocktail_name r1) (row_cocktail_name r2))
    eqn:H12; try discriminate;
    destruct (String.compare (row_cocktail_name r2) (row_cocktail_name r3))
      eqn:H23; try discriminate; intros Ha Hb.
  - apply String.compare_eq_iff in H12, H23. rewrite H12, H23.
    rewrite string_compare_refl. now apply (volume_desc_le_trans _ _ _ Ha).
  - apply String.compare_eq_iff in H12. rewrite H12. now rewrite H23.
  - apply String.compare_eq_iff in H23. rewrite <- H23. now rewrite H12.
  - now rewrite (string_compare_lt_trans _ _ _ H12 H23).
Qed.

Lemma name_volume_le_total (r1 r2 : ResultRow) :
  name_volume_le r1 r2 = false -> name_volume_le r2 r1 = true.
Proof.
  unfold name_volume_le.
  rewrite (String.compare_antisym (row_cocktail_name r2)).
  destruct (String.compare (row_cocktail_name r1) (row_cocktail_name r2));
    simpl; try discriminate; try reflexivity.
  apply volume_desc_le_total.
Qed.

Lemma string_leb_trans (s1 s2 s3 : string) :
  String.leb s1 s2 = true -> String.leb s2 s3 = true ->
  String.leb s1 s3 = true.
Proof.
  unfold String.leb.
  destruct (String.compare s1 s2) eqn:H12; try discriminate;
    destruct (String.compare s2 s3) eqn:H23; try discriminate; intros _ _.
  - apply String.compare_eq_iff in H12, H23. subst.
    now rewrite string_compare_refl.
  - apply String.compare_eq_iff in H12. subst. now rewrite H23.
  - apply String.compare_eq_iff in H23. subst. now rewrite H12.
  - now rewrite (string_compare_lt_trans _ _ _ H12 H23).
Qed.

Lemma string_leb_total (s1 s2 : string) :
  String.leb s1 s2 = false -> String.leb s2 s1 = true.
Proof.
  intros H. destruct (String.leb_total s1 s2) as [H'|H']; congruence.
Qed.

Lemma string_leb_refl (s : string) : String.leb s s = true.
Proof. unfold String.leb. now rewrite string_compare_refl. Qed.

Lemma string_leb_ltb (a b : string) :
  String.leb a b = true -> a <> b -> String.ltb a b = true.
Proof.
  unfold String.leb, String.ltb. intros H Hne.
  destruct (String.compare a b) eqn:E; try reflexivity; try discriminate.
  apply String.compare_eq_iff in E. contradiction.
Qed.

Lemma string_ltb_irrefl (s : string) : String.ltb s s = false.
Proof. unfold String.ltb. now rewrite string_compare_refl. Qed.

Lemma string_ltb_asym (a b : string) :
  String.ltb a b = true -> String.ltb b a = true -> False.
Proof.
  unfold String.ltb. rewrite (String.compare_antisym a b).
  destruct (String.compare b a); simpl; discriminate.
Qed.

(** ** The stable sort sorts *)

Section StableSortSorted.
Context {A : Type} (le_key : A -> A -> bool).
Hypothesis le_key_trans :
  forall x y z, le_key x y = true -> le_key y z = true -> le_key x z = true.
Hypothesis le_key_total :
  forall x y, le_key x y = false -> le_key y x = true.

Lemma insert_row_sorted (r : A) (l : list A) :
  StronglySorted (fun x y => le_key x y = true) l ->
  StronglySorted (fun x y => le_key x y = true) (insert_row le_key r l).
Proof.
  induction 1 as [|h l Hs IH Hh]; simpl.
  - repeat constructor.
  - destruct (le_key r h) eqn:Hrh.
    + constructor; [now constructor|].
      constructor; [exact Hrh|].
      eapply Forall_impl; [|exact Hh].
      intros y Hy. exact (le_key_trans _ _ _ Hrh Hy).
    + constructor; [exact IH|].
      eapply Permutation_Forall; [symmetry; apply insert_row_perm|].
      constructor; [now apply le_key_total|exact Hh].
Qed.

Lemma stable_sort_sorted (l : list A) :
  StronglySorted (fun x y => le_key x y = true) (stable_sort le_key l).
Proof.
  induction l as [|a l IH]; simpl; [constructor|].
  now apply insert_row_sorted.
Qed.
End StableSortSorted.

(** ** The head of a cocktail's rows after the sort of line 59 *)

Lemma find_insert_other (c : string) (x : ResultRow) (l : list ResultRow) :
  of_cocktail c x = false ->
  find (of_cocktail c) (insert_row name_volume_le x l)
  = find (of_cocktail c) l.
Proof.
  intros Hx. induction l as [|h l IH]; simpl.
  - now rewrite Hx.
  - destruct (name_volume_le x h); simpl.
    + now rewrite Hx.
    + now rewrite IH.
Qed.

Lemma find_insert_same (c : string) (x : ResultRow) (l : list ResultRow) :
  of_cocktail c x = true ->
  StronglySorted (fun a b => name_volume_le a b = true) l ->
  find (of_cocktail c) (insert_row name_volume_le x l)
  = match find (of_cocktail c) l with
    | None => Some x
    | Some b =>
        if volume_desc_le (row_volume_oz x) (row_volume_oz b)
        then Some x else Some b
    end.
Proof.
  intros Hx Hs. pose proof Hx as Hxc. apply String.eqb_eq in Hxc.
  induction Hs as [|h l Hs IH Hh]; simpl.
  - now rewrite Hx.
  - destruct (name_volume_le x h) eqn:Hle; simpl.
    + rewrite Hx. destruct (of_cocktail c h) eqn:Hhc.
      * apply String.eqb_eq in Hhc.
        rewrite name_volume_le_same in Hle by congruence. now rewrite Hle.
      * destruct (find (of_cocktail c) l) as [b|] eqn:Hf; [|reflexivity].
        exfalso. apply find_some in Hf. destruct Hf as [Hb Hbc].
        apply String.eqb_eq in Hbc.
        rewrite Forall_forall in Hh. specialize (Hh b Hb).
        apply String.eqb_neq in Hhc.
        unfold name_volume_le in Hle, Hh. rewrite Hxc in Hle. rewrite Hbc in Hh.
        rewrite String.compare_antisym in Hh.
        destruct (String.compare c (row_cocktail_name h)) eqn:Hcmp;
          simpl in Hh; try discriminate.
        apply String.compare_eq_iff in Hcmp. congruence.
    + destruct (of_cocktail c h) eqn:Hhc.
      * apply String.eqb_eq in Hhc.
        rewrite name_volume_le_same in Hle by congruence. now rewrite Hle.
      * exact IH.
Qed.

Lemma find_sorted_first_largest (c : string) (l : list ResultRow) :
  find (of_cocktail c) (stable_sort name_volume_le l)
  = first_largest (filter (of_cocktail c) l).
Proof.
  induction l as [|x l IH]; [reflexivity|].
  cbn [stable_sort fold_right filter]. fold (stable_sort name_volume_le l).
  destruct (of_cocktail c x) eqn:Hx.
  - rewrite find_insert_same; [|exact Hx|].
    + cbn [first_largest]. now rewrite IH.
    + apply stable_sort_sorted.
      * apply name_volume_le_trans.
      * apply name_volume_le_total.
  - rewrite find_insert_other by exact Hx. exact IH.
Qed.

Lemma first_largest_none (l : list ResultRow) :
  first_largest l = None -> l = [].
Proof.
  destruct l as [|r l]; [reflexivity|]. simpl.
  destruct (first_largest l) as [b|]; [|discriminate].
  destruct (volume_desc_le _ _); discriminate.
Qed.

(** [first_largest] picks a row of the largest volume; the rows before it are
    strictly smaller. *)
Lemma first_largest_spec (l : list ResultRow) (r : ResultRow) :
  first_largest l = Some r ->
  exists before after,
    l = before ++ r :: after /\
    (forall x, In x before ->
               volume_lt (row_volume_oz x) (row_volume_oz r)) /\
    (forall x, In x after ->
               volume_le (row_volume_oz x) (row_volume_oz r)).
Proof.
  revert r. induction l as [|a l IH]; intros r; simpl; [discriminate|].
  destruct (first_largest l) as [b|] eqn:Hb.
  - destruct (IH b eq_refl) as [before [after [Hl [Hbefore Hafter]]]].
    destruct (volume_desc_le (row_volume_oz a) (row_volume_oz b)) eqn:Hab;
      intros Hr; injection Hr as <-.
    + exists [], l. split; [reflexivity|]. split; [intros x []|].
      apply volume_desc_le_true in Hab.
      intros x Hx. rewrite Hl in Hx. apply in_app_or in Hx.
      apply volume_le_trans with (v2 := row_volume_oz b); [|exact Hab].
      destruct Hx as [Hx|[<-|Hx]].
      * now apply volume_lt_le, Hbefore.
      * apply volume_desc_le_true. destruct (row_volume_oz b); simpl;
          [apply Qle_bool_iff, Qle_refl|reflexivity].
      * now apply Hafter.
    + exists (a :: before), after. split; [now rewrite Hl|].
      split; [|exact Hafter].
      intros x [<-|Hx]; [now apply volume_desc_le_false|now apply Hbefore].
  - intros Hr; injection Hr as <-.
    apply first_largest_none in Hb. subst l.
    exists [], []. repeat split; intros x [].
Qed.

(** ** [drop_duplicates] keeps the first row of every key *)

Section DropDuplicates.
Context {A K : Type} (eqk : K -> K -> bool) (key : A -> K).
Hypothesis eqk_eq : forall a b, eqk a b = true <-> a = b.

Lemma filter_drop_duplicates (p : A -> bool) (k : K) (l : list A) :
  (forall x, p x = true <-> key x = k) ->
  filter p (drop_duplicates eqk key l)
  = match find p l with
    | Some x => [x]
    | None => []
    end.
Proof.
  intros Hp. induction l as [|r l IH]; [reflexivity|].
  cbn [drop_duplicates filter find].
  destruct (p r) eqn:Hr.
  - f_equal. apply filter_none. intros x Hx.
    apply filter_In in Hx. destruct Hx as [_ Hx].
    apply negb_true_iff in Hx.
    destruct (p x) eqn:Hpx; [|reflexivity].
    apply Hp in Hr, Hpx.
    assert (Heq : eqk (key r) (key x) = true)
      by (apply eqk_eq; congruence).
    congruence.
  - rewrite filter_filter_implied; [exact IH|].
    intros x _ Hpx. apply negb_true_iff.
    destruct (eqk (key r) (key x)) eqn:Heq; [|reflexivity].
    apply eqk_eq in Heq. apply Hp in Hpx.
    assert (Hpr : p r = true) by (apply Hp; congruence).
    congruence.
Qed.
End DropDuplicates.

Lemma filter_map_swap {A B : Type} (f : A -> B) (p : B -> bool)
    (l : list A) :
  filter p (map f l) = map f (filter (fun x => p (f x)) l).
Proof.
  induction l as [|a l IH]; [reflexivity|].
  cbn [map filter]. destruct (p (f a)); cbn [map]; now rewrite IH.
Qed.

Lemma flat_map_single {A B : Type} (f : A -> list B) (g : A -> B)
    (l : list A) :
  (forall x, In x l -> f x = [g x]) -> flat_map f l = map g l.
Proof.
  induction l as [|a l IH]; intros H; [reflexivity|].
  cbn [flat_map map]. rewrite (H a (or_introl eq_refl)).
  rewrite IH by (intros x Hx; apply H; now right). reflexivity.
Qed.

Lemma in_combine_seq {B : Type} (l : list B) (y : B) (start : nat) :
  In y l -> exists n, In (n, y) (combine (seq start (List.length l)) l).
Proof.
  revert start. induction l as [|b l IH]; intros start; [intros []|].
  cbn [List.length seq combine]. intros [->|H].
  - exists start. now left.
  - destruct (IH (S start) H) as [n Hn]. exists n. now right.
Qed.

Lemma option_string_eqb_eq (a b : option string) :
  option_string_eqb a b = true <-> a = b.
Proof.
  destruct a as [x|], b as [y|]; simpl; try (split; congruence).
  rewrite String.eqb_eq. split; congruence.
Qed.

Lemma same_row_eq (a b : option string * string) :
  same_row a b = true <-> a = b.
Proof.
  unfold same_row. destruct a as [a1 a2], b as [b1 b2]. cbn [fst snd].
  rewrite andb_true_iff, option_string_eqb_eq, String.eqb_eq.
  split; [intros [-> ->]; reflexivity|intros H; now inversion H].
Qed.

(** ** The primary alcohol table *)

(** The type that line 66 attaches to the rows of cocktail [c]. *)
Lemma max_volume_type_df_lookup (df : list ResultRow) (c : string) :
  filter (fun m => String.eqb (fst m) c) (max_volume_type_df df)
  = match first_largest (filter (of_cocktail c) (filter is_alcoholic df)) with
    | Some x => [(row_cocktail_name x, row_type x)]
    | None => []
    end.
Proof.
  unfold max_volume_type_df. rewrite filter_map_swap. cbn [fst].
  change (fun x : ResultRow => String.eqb (row_cocktail_name x) c)
    with (of_cocktail c).
  rewrite (filter_drop_duplicates String.eqb row_cocktail_name
             String.eqb_eq (of_cocktail c) c)
    by (intros x; apply String.eqb_eq).
  rewrite find_sorted_first_largest.
  now destruct (first_largest _).
Qed.

Lemma merge_left_max_volume (df : list ResultRow) :
  merge_left df (max_volume_type_df df)
  = map (fun r => (r, assigned_type df (row_cocktail_name r))) df.
Proof.
  unfold merge_left. apply flat_map_single. intros r _.
  rewrite max_volume_type_df_lookup. unfold assigned_type.
  now destruct (first_largest _).
Qed.

Lemma filter_filter_andb {A : Type} (p q : A -> bool) (l : list A) :
  filter p (filter q l) = filter (fun x => q x && p x) l.
Proof.
  induction l as [|a l IH]; [reflexivity|].
  cbn [filter]. destruct (q a); cbn [filter andb]; now rewrite IH.
Qed.

Lemma deduplicated_types (projected : list (option string * string))
    (c : string) (t : option string) :
  (forall y, In y projected -> snd y = c -> fst y = t) ->
  In (t, c) projected ->
  map (fun l : nat * (option string * string) => fst (snd l))
      (filter (fun l => String.eqb (snd (snd l)) c)
         (drop_duplicates same_row snd
            (combine (seq 0 (List.length projected)) projected)))
  = [t].
Proof.
  intros Hfun Hin.
  set (labelled := combine (seq 0 (List.length projected)) projected).
  set (p := fun l : nat * (option string * string) => same_row (snd l) (t, c)).
  assert (Hp : forall x, p x = true <-> snd x = (t, c))
    by (intros x; apply same_row_eq).
  rewrite (filter_ext_in _ p).
  - rewrite (filter_drop_duplicates same_row snd same_row_eq p (t, c) _ Hp).
    destruct (find p labelled) as [x|] eqn:Hf.
    + apply find_some in Hf. destruct Hf as [_ Hx]. apply Hp in Hx.
      cbn [map]. now rewrite Hx.
    + exfalso. destruct (in_combine_seq projected (t, c) 0 Hin) as [n Hn].
      pose proof (find_none _ _ Hf _ Hn) as Hnone.
      assert (Hyes : p (n, (t, c)) = true) by now apply Hp.
      congruence.
  - intros [n y] Hy. apply drop_duplicates_incl in Hy.
    apply in_combine_r in Hy. cbn [snd].
    destruct (String.eqb_spec (snd y) c) as [Hc|Hc]; symmetry.
    + apply Hp. cbn [snd]. destruct y as [y1 y2]. cbn [fst snd] in *.
      now rewrite <- (Hfun _ Hy Hc), Hc.
    + destruct (p (n, y)) eqn:Hpy; [|reflexivity].
      apply Hp in Hpy. cbn [snd] in Hpy. subst y. now destruct Hc.
Qed.

(** ** Further properties of the frame operations *)

Lemma drop_duplicates_map {A B K : Type} (eqk : K -> K -> bool)
    (key : B -> K) (f : A -> B) (l : list A) :
  drop_duplicates eqk key (map f l)
  = map f (drop_duplicates eqk (fun x => key (f x)) l).
Proof.
  induction l as [|a l IH]; [reflexivity|].
  cbn [map drop_duplicates]. now rewrite IH, filter_map_swap.
Qed.

Lemma drop_duplicates_ext_in {A K1 K2 : Type} (eq1 : K1 -> K1 -> bool)
    (eq2 : K2 -> K2 -> bool) (k1 : A -> K1) (k2 : A -> K2) (l : list A) :
  (forall x y, In x l -> In y l -> eq1 (k1 x) (k1 y) = eq2 (k2 x) (k2 y)) ->
  drop_duplicates eq1 k1 l = drop_duplicates eq2 k2 l.
Proof.
  induction l as [|a l IH]; intros H; [reflexivity|].
  cbn [drop_duplicates].
  rewrite <- IH by (intros x y Hx Hy; apply H; now right).
  f_equal. apply filter_ext_in. intros x Hx.
  apply drop_duplicates_incl in Hx.
  now rewrite (H a x (or_introl eq_refl) (or_intror Hx)).
Qed.

Lemma map_snd_combine_seq {B : Type} (l : list B) (start : nat) :
  map snd (combine (seq start (List.length l)) l) = l.
Proof.
  revert start. induction l as [|b l IH]; intros start; [reflexivity|].
  cbn [List.length seq combine map snd]. now rewrite IH.
Qed.

Lemma StronglySorted_filter {A : Type} (R : A -> A -> Prop) (p : A -> bool)
    (l : list A) :
  StronglySorted R l -> StronglySorted R (filter p l).
Proof.
  induction 1 as [|a l Hs IH Ha]; cbn [filter]; [constructor|].
  destruct (p a); [|exact IH].
  constructor; [exact IH|].
  apply Forall_forall. intros x Hx. apply filter_In in Hx.
  rewrite Forall_forall in Ha. now apply Ha.
Qed.

Lemma StronglySorted_drop_duplicates {A K : Type} (R : A -> A -> Prop)
    (eqk : K -> K -> bool) (key : A -> K) (l : list A) :
  StronglySorted R l -> StronglySorted R (drop_duplicates eqk key l).
Proof.
  induction 1 as [|a l Hs IH Ha]; cbn [drop_duplicates]; [constructor|].
  constructor; [now apply StronglySorted_filter|].
  apply Forall_forall. intros x Hx. apply filter_In in Hx.
  destruct Hx as [Hx _]. apply drop_duplicates_incl in Hx.
  rewrite Forall_forall in Ha. now apply Ha.
Qed.

Lemma StronglySorted_map {A B : Type} (R : B -> B -> Prop) (f : A -> B)
    (l : list A) :
  StronglySorted (fun x y => R (f x) (f y)) l -> StronglySorted R (map f l).
Proof.
  induction 1 as [|a l Hs IH Ha]; cbn [map]; constructor; [exact IH|].
  apply Forall_forall. intros y Hy. apply in_map_iff in Hy.
  destruct Hy as [x [<- Hx]]. rewrite Forall_forall in Ha. now apply Ha.
Qed.

Lemma sorted_labels_sorted (l : list string) :
  StronglySorted (fun a b => String.leb a b = true) (sorted_labels l).
Proof.
  unfold sorted_labels. apply stable_sort_sorted.
  - apply string_leb_trans.
  - apply string_leb_total.
Qed.

Lemma sorted_NoDup_strict (l : list string) :
  StronglySorted (fun a b => String.leb a b = true) l -> NoDup l ->
  StronglySorted (fun a b => String.ltb a b = true) l.
Proof.
  induction 1 as [|a l Hs IH Ha]; intros Hnd; constructor.
  - apply IH. now inversion Hnd.
  - apply Forall_forall. intros x Hx. rewrite Forall_forall in Ha.
    apply string_leb_ltb; [now apply Ha|].
    intros ->. now inversion Hnd.
Qed.

(** Two strictly ascending lists with the same members are equal. *)
Lemma strictly_sorted_ext (l1 l2 : list string) :
  StronglySorted (fun a b => String.ltb a b = true) l1 ->
  StronglySorted (fun a b => String.ltb a b = true) l2 ->
  (forall x, In x l1 <-> In x l2) -> l1 = l2.
Proof.
  intros H1. revert l2.
  induction H1 as [|a l1 Hs1 IH Ha]; intros l2 H2 Hmem.
  - destruct l2 as [|b l2]; [reflexivity|].
    destruct (proj2 (Hmem b) (or_introl eq_refl)).
  - destruct H2 as [|b l2 Hs2 Hb].
    + destruct (proj1 (Hmem a) (or_introl eq_refl)).
    + rewrite Forall_forall in Ha, Hb.
      assert (Hab : a = b).
      { destruct (proj1 (Hmem a) (or_introl eq_refl)) as [Hba|Hin];
          [now symmetry|].
        destruct (proj2 (Hmem b) (or_introl eq_refl)) as [Hab|Hin'];
          [exact Hab|].
        destruct (string_ltb_asym a b (Ha _ Hin') (Hb _ Hin)). }
      subst b. f_equal. apply IH; [exact Hs2|].
      intros x. split; intros Hx.
      * destruct (proj1 (Hmem x) (or_intror Hx)) as [<-|Hin]; [|exact Hin].
        pose proof (Ha _ Hx) as Hlt. rewrite string_ltb_irrefl in Hlt.
        discriminate.
      * destruct (proj2 (Hmem x) (or_intror Hx)) as [<-|Hin]; [|exact Hin].
        pose proof (Hb _ Hx) as Hlt. rewrite string_ltb_irrefl in Hlt.
        discriminate.
Qed.

Lemma find_combine_seq {B : Type} (p : nat * B -> bool) (l : list B)
    (start i : nat) (y : B) :
  find p (combine (seq start (List.length l)) l) = Some (i, y) ->
  (start <= i)%nat /\
  nth_error l (i - start) = Some y /\
  forall j z, nth_error l j = Some z -> p ((start + j)%nat, z) = true ->
              (i <= start + j)%nat.
Proof.
  revert start. induction l as [|b l IH]; intros start; [discriminate|].
  cbn [List.length seq combine find].
  destruct (p (start, b)) eqn:Hp.
  - intros H. injection H as <- <-. rewrite Nat.sub_diag.
    repeat split; [lia|]. intros; lia.
  - intros H. destruct (IH _ H) as [Hle [Hn Hmin]].
    split; [lia|]. split.
    + replace (i - start)%nat with (S (i - S start)) by lia. exact Hn.
    + intros [|j] z Hz Hpz.
      * cbn in Hz. injection Hz as <-. rewrite Nat.add_0_r in Hpz. congruence.
      * cbn in Hz. rewrite <- Nat.add_succ_comm in Hpz.
        rewrite <- Nat.add_succ_comm. now apply (Hmin j z).
Qed.

Lemma join_abv_rows (cocktails_and_ingredients : list CompositionRecord)
    (cocktails : list CocktailRecord) (r : CompositionRecord) :
  In r cocktails_and_ingredients <->
  exists a, In (r, a) (join_abv cocktails_and_ingredients cocktails).
Proof.
  unfold join_abv. split.
  - intros Hr.
    destruct (filter (fun c => String.eqb (name c) (cocktail_name r))
                     cocktails) as [|c0 cs] eqn:Hf.
    + exists None. apply in_flat_map. exists r. split; [exact Hr|].
      rewrite Hf. now left.
    + exists (abv c0). apply in_flat_map. exists r. split; [exact Hr|].
      rewrite Hf. now left.
  - intros [a Ha]. apply in_flat_map in Ha. destruct Ha as [r0 [Hr0 Ha]].
    destruct (filter (fun c => String.eqb (name c) (cocktail_name r0))
                     cocktails) as [|c0 cs].
    + destruct Ha as [Ha|[]]. now inversion Ha; subst.
    + apply in_map_iff in Ha. destruct Ha as [c [Ha _]].
      now inversion Ha; subst.
Qed.

(** ** The sort of line 55 *)

(** A stable sort meets the contract of the sort of line 55. *)
Lemma sort_stably_sorts : sorts_by_cocktail_name sort_stably.
Proof.
  intros df. split; [apply stable_sort_perm|].
  apply (stable_sort_sorted cocktail_name_le).
  - intros x y z. apply string_leb_trans.
  - intros x y. apply string_leb_total.
Qed.

(** A table of one row is left as it is, whatever the sort. *)
Lemma sort_values_one_row (sort_values : list ResultRow -> list ResultRow)
    (x : ResultRow) :
  sorts_by_cocktail_name sort_values -> sort_values [x] = [x].
Proof.
  intros H. destruct (H [x]) as [Hp _].
  symmetry in Hp. now apply Permutation_length_1_inv in Hp.
Qed.

Section PrimaryAlcoholTable.
Variable sort_values : list ResultRow -> list ResultRow.
Hypothesis sort_values_sorts : sorts_by_cocktail_name sort_values.

Lemma sort_values_In (df : list ResultRow) (r : ResultRow) :
  In r (sort_values df) <-> In r df.
Proof.
  destruct (sort_values_sorts df) as [Hp _].
  split; apply Permutation_in; [exact Hp|now symmetry].
Qed.

(** The returned table lists every cocktail of [result_df] once, with the
    type line 66 attaches to it. *)
Lemma primary_types_of_table (cocktails : list CocktailRecord)
    (ingredients : list IngredientRecord)
    (cocktails_and_ingredients : list CompositionRecord) (c : string) :
  let df := result_df sort_values cocktails ingredients cocktails_and_ingredients in
  (exists r, In r df /\ row_cocktail_name r = c) ->
  primary_types_of
    (generate_table_with_cocktails_and_their_main_ingr_type
       sort_values cocktails ingredients cocktails_and_ingredients) c
  = [assigned_type df c].
Proof.
  intros df [r [Hr Hc]].
  unfold primary_types_of,
    generate_table_with_cocktails_and_their_main_ingr_type.
  fold df. rewrite merge_left_max_volume, filter_map_swap, !map_map.
  cbn [fst snd primary_alcohol_type primary_cocktail_name].
  apply deduplicated_types.
  - intros y Hy Hyc. apply in_map_iff in Hy. destruct Hy as [r0 [<- _]].
    cbn [fst snd] in *. now rewrite Hyc.
  - apply in_map_iff. exists r. now rewrite Hc.
Qed.

Lemma result_df_type_present (cocktails : list CocktailRecord)
    (ingredients : list IngredientRecord)
    (cocktails_and_ingredients : list CompositionRecord) (r : ResultRow) :
  In r (result_df sort_values cocktails ingredients cocktails_and_ingredients) ->
  exists t, row_type r = Some t.
Proof.
  unfold result_df. rewrite sort_values_In, in_map_iff.
  intros [[i [r0 a]] [<- Hm]]. apply filter_In in Hm.
  destruct Hm as [_ Hm]. unfold notna_type in Hm. cbn in *.
  destruct (type i) as [t|]; [now exists t|discriminate].
Qed.

(** C2 (as amended): for every cocktail with at least one alcoholic row left
    in [result_df], that is after the rows whose [type] is missing are
    dropped (line 52), the returned table lists the cocktail once, and its
    primary alcohol type is the (present) [type] of the alcoholic row of the
    largest volume, a missing volume being below every present one.  Among
    rows that tie on the largest volume the first one wins, in the order in
    which the sort of line 55 left the rows of the cocktail: every alcoholic
    row of the cocktail before the winner is strictly smaller, every one
    after it is at most as large.  This holds for every sort that line 55 may
    run.  Non-alcoholic rows play no part. *)
Theorem primary_type_is_largest_typed_alcoholic
    (cocktails : list CocktailRecord) (ingredients : list IngredientRecord)
    (cocktails_and_ingredients : list CompositionRecord) (c : string) :
  let df := result_df sort_values cocktails ingredients cocktails_and_ingredients in
  alcoholic_rows df c <> [] ->
  exists before r after t,
    alcoholic_rows df c = before ++ r :: after /\
    (forall x, In x before ->
               volume_lt (row_volume_oz x) (row_volume_oz r)) /\
    (forall x, In x after ->
               volume_le (row_volume_oz x) (row_volume_oz r)) /\
    row_type r = Some t /\
    primary_types_of
      (generate_table_with_cocktails_and_their_main_ingr_type
         sort_values cocktails ingredients cocktails_and_ingredients) c
    = [Some t].
Proof.
  intros df Hne.
  assert (Hrows : filter (of_cocktail c) (filter is_alcoholic df)
                  = alcoholic_rows df c) by apply filter_filter_andb.
  destruct (first_largest (alcoholic_rows df c)) as [r|] eqn:Hbest;
    [|now apply first_largest_none in Hbest].
  destruct (first_largest_spec _ _ Hbest) as [before [after [Hl [Hb Ha]]]].
  assert (Hin : In r (alcoholic_rows df c))
    by (rewrite Hl; apply in_or_app; right; now left).
  unfold alcoholic_rows in Hin. apply filter_In in Hin.
  destruct Hin as [Hr Hrc]. apply andb_true_iff in Hrc.
  destruct Hrc as [_ Hrc]. apply String.eqb_eq in Hrc.
  destruct (result_df_type_present _ _ _ _ Hr) as [t Ht].
  exists before, r, after, t. repeat split; try assumption.
  subst df. rewrite primary_types_of_table by now exists r.
  unfold assigned_type. rewrite Hrows, Hbest. now rewrite Ht.
Qed.

(** C10 (as amended): every cocktail that has a row in [result_df], that is
    after the rows whose [type] is missing are dropped (line 52), and has no
    alcoholic row there, is listed in the returned table exactly once, with a
    missing primary alcohol type. *)
Theorem cocktail_without_alcohol_is_kept
    (cocktails : list CocktailRecord) (ingredients : list IngredientRecord)
    (cocktails_and_ingredients : list CompositionRecord) (c : string) :
  let df := result_df sort_values cocktails ingredients cocktails_and_ingredients in
  (exists r, In r df /\ row_cocktail_name r = c) ->
  (forall r, In r df -> row_cocktail_name r = c -> is_alcoholic r = false) ->
  primary_types_of
    (generate_table_with_cocktails_and_their_main_ingr_type
       sort_values cocktails ingredients cocktails_and_ingredients) c
  = [None].
Proof.
  intros df Hex Hnone. subst df.
  rewrite primary_types_of_table by exact Hex.
  unfold assigned_type. rewrite filter_filter_andb, filter_none; [reflexivity|].
  intros r Hr. destruct (is_alcoholic r) eqn:Ha; [|reflexivity].
  cbn [andb]. unfold of_cocktail.
  destruct (String.eqb_spec (row_cocktail_name r) c) as [Hc|]; [|reflexivity].
  rewrite (Hnone r Hr Hc) in Ha. discriminate.
Qed.

Lemma result_df_sorted (cocktails : list CocktailRecord)
    (ingredients : list IngredientRecord)
    (cocktails_and_ingredients : list CompositionRecord) :
  StronglySorted (fun a b => String.leb a b = true)
    (map row_cocktail_name
         (result_df sort_values cocktails ingredients cocktails_and_ingredients)).
Proof.
  apply StronglySorted_map. unfold result_df.
  exact (proj2 (sort_values_sorts _)).
Qed.

Lemma primary_table_cocktail_names (cocktails : list CocktailRecord)
    (ingredients : list IngredientRecord)
    (cocktails_and_ingredients : list CompositionRecord) :
  map primary_cocktail_name
      (generate_table_with_cocktails_and_their_main_ingr_type
         sort_values cocktails ingredients cocktails_and_ingredients)
  = unique (map row_cocktail_name
                (result_df sort_values cocktails ingredients cocktails_and_ingredients)).
Proof.
  unfold generate_table_with_cocktails_and_their_main_ingr_type.
  set (df := result_df sort_values cocktails ingredients cocktails_and_ingredients).
  rewrite merge_left_max_volume, !map_map.
  cbn [fst snd primary_cocktail_name].
  set (projected := map (fun r => (assigned_type df (row_cocktail_name r),
                                   row_cocktail_name r)) df).
  set (labelled := combine (seq 0 (List.length projected)) projected).
  rewrite (drop_duplicates_ext_in same_row String.eqb snd
             (fun l => snd (snd l)) labelled).
  - rewrite <- (map_map snd snd).
    rewrite <- (drop_duplicates_map String.eqb snd snd labelled).
    subst labelled. rewrite map_snd_combine_seq.
    etransitivity;
      [symmetry;
       exact (drop_duplicates_map String.eqb (fun s => s) snd projected)|].
    subst projected. now rewrite map_map.
  - intros [n x] [m y] Hx Hy. apply in_combine_r in Hx, Hy. cbn [snd].
    subst projected. apply in_map_iff in Hx, Hy.
    destruct Hx as [rx [<- _]], Hy as [ry [<- _]].
    unfold same_row. cbn [fst snd].
    destruct (String.eqb_spec (row_cocktail_name rx) (row_cocktail_name ry))
      as [Heq|Hne].
    + rewrite Heq, andb_true_r. now apply option_string_eqb_eq.
    + apply andb_false_r.
Qed.

Lemma result_df_rows (cocktails : list CocktailRecord)
    (ingredients : list IngredientRecord)
    (cocktails_and_ingredients : list CompositionRecord) (x : ResultRow) :
  In x (result_df sort_values cocktails ingredients cocktails_and_ingredients) <->
  exists i r a,
    In i ingredients /\
    In (r, a) (join_abv cocktails_and_ingredients cocktails) /\
    ingr_name i = ingredient_name r /\
    type i <> None /\
    x = drop_name (i, (r, a)).
Proof.
  unfold result_df. rewrite sort_values_In, in_map_iff. split.
  - intros [[i [r a]] [Hx Hm]]. apply filter_In in Hm.
    destruct Hm as [Hm Ht]. unfold merge_inner in Hm.
    apply in_flat_map in Hm. destruct Hm as [i0 [Hi0 Hm]].
    apply in_map_iff in Hm. destruct Hm as [[r0 a0] [Heq Hr0]].
    inversion Heq; subst. apply filter_In in Hr0. destruct Hr0 as [Hr Hk].
    cbn [fst] in Hk. apply String.eqb_eq in Hk.
    exists i, r, a. repeat split; try assumption; try reflexivity.
    unfold notna_type in Ht. cbn [fst] in Ht.
    destruct (type i); [discriminate|discriminate Ht].
  - intros [i [r [a [Hi [Hr [Hk [Ht ->]]]]]]].
    exists (i, (r, a)). split; [reflexivity|].
    apply filter_In. split.
    + unfold merge_inner. apply in_flat_map. exists i. split; [exact Hi|].
      apply in_map. apply filter_In. split; [exact Hr|].
      cbn [fst]. now apply String.eqb_eq.
    + unfold notna_type. cbn [fst]. destruct (type i); [reflexivity|].
      now destruct Ht.
Qed.

Lemma result_df_cocktails (cocktails : list CocktailRecord)
    (ingredients : list IngredientRecord)
    (cocktails_and_ingredients : list CompositionRecord) (c : string) :
  In c (map row_cocktail_name
            (result_df sort_values cocktails ingredients cocktails_and_ingredients)) <->
  exists r i,
    In r cocktails_and_ingredients /\ In i ingredients /\
    ingr_name i = ingredient_name r /\ type i <> None /\
    cocktail_name r = c.
Proof.
  rewrite in_map_iff. split.
  - intros [x [Hc Hx]]. apply result_df_rows in Hx.
    destruct Hx as [i [r [a [Hi [Hr [Hk [Ht ->]]]]]]].
    exists r, i. cbn in Hc. repeat split; try assumption.
    apply (proj2 (join_abv_rows _ cocktails r)). now exists a.
  - intros [r [i [Hr [Hi [Hk [Ht Hc]]]]]].
    apply (join_abv_rows _ cocktails) in Hr. destruct Hr as [a Ha].
    exists (drop_name (i, (r, a))). split; [exact Hc|].
    apply result_df_rows. now exists i, r, a.
Qed.

(** X1: the returned table has exactly one row per cocktail, and the
    cocktails it lists are those with at least one composition row whose
    ingredient is in the ingredient table with a present [type]; a cocktail
    all of whose ingredients are unknown or untyped is silently left out.
    The cocktail table plays no part in it. *)
Theorem primary_table_lists_typed_cocktails_once
    (cocktails : list CocktailRecord) (ingredients : list IngredientRecord)
    (cocktails_and_ingredients : list CompositionRecord) :
  let out := generate_table_with_cocktails_and_their_main_ingr_type
               sort_values cocktails ingredients cocktails_and_ingredients in
  NoDup (map primary_cocktail_name out) /\
  forall c,
    In c (map primary_cocktail_name out) <->
    exists r i,
      In r cocktails_and_ingredients /\ In i ingredients /\
      ingr_name i = ingredient_name r /\ type i <> None /\
      cocktail_name r = c.
Proof.
  intros out. subst out. rewrite primary_table_cocktail_names.
  split; [apply unique_NoDup|].
  intros c. rewrite unique_In. apply result_df_cocktails.
Qed.

Lemma unique_names_strictly_sorted (cocktails : list CocktailRecord)
    (ingredients : list IngredientRecord)
    (cocktails_and_ingredients : list CompositionRecord) :
  StronglySorted (fun a b => String.ltb a b = true)
    (unique (map row_cocktail_name
                 (result_df sort_values cocktails ingredients cocktails_and_ingredients))).
Proof.
  apply sorted_NoDup_strict; [|apply unique_NoDup].
  unfold unique. apply StronglySorted_drop_duplicates.
  apply result_df_sorted.
Qed.

(** X2: the rows of the returned table are in strictly ascending order of
    [cocktail_name] (the order of line 55 survives the left merge and the
    removal of duplicates). *)
Theorem primary_table_sorted_by_cocktail
    (cocktails : list CocktailRecord) (ingredients : list IngredientRecord)
    (cocktails_and_ingredients : list CompositionRecord) :
  StronglySorted (fun a b => String.ltb a b = true)
    (map primary_cocktail_name
         (generate_table_with_cocktails_and_their_main_ingr_type
            sort_values cocktails ingredients cocktails_and_ingredients)).
Proof.
  rewrite primary_table_cocktail_names.
  apply unique_names_strictly_sorted.
Qed.

Lemma primary_table_row (cocktails : list CocktailRecord)
    (ingredients : list IngredientRecord)
    (cocktails_and_ingredients : list CompositionRecord)
    (o : PrimaryAlcoholRow) :
  let df := result_df sort_values cocktails ingredients cocktails_and_ingredients in
  In o (generate_table_with_cocktails_and_their_main_ingr_type
          sort_values cocktails ingredients cocktails_and_ingredients) ->
  primary_alcohol_type o = assigned_type df (primary_cocktail_name o).
Proof.
  intros df.
  unfold generate_table_with_cocktails_and_their_main_ingr_type. fold df.
  rewrite merge_left_max_volume, map_map. cbn [fst snd].
  intros Ho. apply in_map_iff in Ho. destruct Ho as [[n y] [<- Hl]].
  apply drop_duplicates_incl in Hl. apply in_combine_r in Hl.
  apply in_map_iff in Hl. destruct Hl as [r [<- _]]. reflexivity.
Qed.

(** X3: a primary alcohol type of the returned table is never invented: it
    is the [type] of an ingredient of the ingredient table whose
    [generalized_type] is "Alcoholic" and which a composition row lists for
    that very cocktail. *)
Theorem primary_type_comes_from_alcoholic_ingredient
    (cocktails : list CocktailRecord) (ingredients : list IngredientRecord)
    (cocktails_and_ingredients : list CompositionRecord)
    (o : PrimaryAlcoholRow) (t : string) :
  In o (generate_table_with_cocktails_and_their_main_ingr_type
          sort_values cocktails ingredients cocktails_and_ingredients) ->
  primary_alcohol_type o = Some t ->
  exists i r,
    In i ingredients /\ In r cocktails_and_ingredients /\
    ingr_name i = ingredient_name r /\
    cocktail_name r = primary_cocktail_name o /\
    type i = Some t /\ generalized_type i = Some "Alcoholic".
Proof.
  intros Ho Ht. rewrite (primary_table_row _ _ _ _ Ho) in Ht.
  unfold assigned_type in Ht.
  destruct (first_largest _) as [x|] eqn:Hbest; [|discriminate].
  destruct (first_largest_spec _ _ Hbest) as [before [after [Hl _]]].
  assert (Hx : In x (filter (of_cocktail (primary_cocktail_name o))
                        (filter is_alcoholic
                           (result_df sort_values cocktails ingredients
                              cocktails_and_ingredients))))
    by (rewrite Hl; apply in_or_app; right; now left).
  apply filter_In in Hx. destruct Hx as [Hx Hc].
  apply filter_In in Hx. destruct Hx as [Hx Ha].
  apply String.eqb_eq in Hc. apply result_df_rows in Hx.
  destruct Hx as [i [r [a [Hi [Hr [Hk [_ ->]]]]]]].
  exists i, r. cbn in Hc, Ht, Ha. repeat split; try assumption.
  - apply (proj2 (join_abv_rows _ cocktails r)). now exists a.
  - unfold is_alcoholic in Ha. cbn in Ha.
    destruct (generalized_type i) as [g|]; [|discriminate].
    apply String.eqb_eq in Ha. now subst.
Qed.

(** X4: the [index] column that [reset_index] leaves in the returned table
    holds, for every listed cocktail, the position of the first row of that
    cocktail in [result_df] (the table of line 55): that row exists, it is a
    row of the cocktail, and no row of the cocktail stands before it. *)
Theorem old_index_is_first_row_of_cocktail
    (cocktails : list CocktailRecord) (ingredients : list IngredientRecord)
    (cocktails_and_ingredients : list CompositionRecord)
    (o : PrimaryAlcoholRow) :
  let df := result_df sort_values cocktails ingredients cocktails_and_ingredients in
  In o (generate_table_with_cocktails_and_their_main_ingr_type
          sort_values cocktails ingredients cocktails_and_ingredients) ->
  exists r,
    nth_error df (old_index o) = Some r /\
    row_cocktail_name r = primary_cocktail_name o /\
    forall j r', nth_error df j = Some r' ->
                 row_cocktail_name r' = primary_cocktail_name o ->
                 (old_index o <= j)%nat.
Proof.
  intros df.
  unfold generate_table_with_cocktails_and_their_main_ingr_type. fold df.
  rewrite merge_left_max_volume, map_map. cbn [fst snd].
  set (g := fun r => (assigned_type df (row_cocktail_name r),
                      row_cocktail_name r)).
  set (projected := map g df).
  set (labelled := combine (seq 0 (List.length projected)) projected).
  intros Ho. apply in_map_iff in Ho. destruct Ho as [[n y] [<- Hl]].
  cbn [fst snd old_index primary_cocktail_name].
  set (p := fun l : nat * (option string * string) => same_row (snd l) y).
  assert (Hp : forall x, p x = true <-> snd x = y)
    by (intros x; apply same_row_eq).
  assert (Hin : In (n, y) (filter p (drop_duplicates same_row snd labelled)))
    by (apply filter_In; split; [exact Hl|now apply Hp]).
  rewrite (filter_drop_duplicates same_row snd same_row_eq p y _ Hp) in Hin.
  destruct (find p labelled) as [x|] eqn:Hf; [|destruct Hin].
  destruct Hin as [->|[]].
  destruct (find_combine_seq p projected 0 n y Hf) as [_ [Hn Hmin]].
  rewrite Nat.sub_0_r in Hn. subst projected. rewrite nth_error_map in Hn.
  destruct (nth_error df n) as [r|] eqn:Hr; [|discriminate].
  cbn in Hn. injection Hn as <-.
  exists r. repeat split. intros j r' Hj Hc. cbn [g snd] in Hc.
  apply (Hmin j (g r')).
  - rewrite nth_error_map, Hj. reflexivity.
  - apply Hp. cbn [snd]. unfold g. now rewrite Hc.
Qed.




End PrimaryAlcoholTable.

Lemma primary_type_is_largest_typed_alcoholic_witness :
  let df := result_df sort_stably bar_cocktails bar_ingredients
                      gin_and_tonic in
  sorts_by_cocktail_name sort_stably /\
  alcoholic_rows df "Gin and Tonic" <> [] /\
  exists before r after t,
    alcoholic_rows df "Gin and Tonic" = before ++ r :: after /\
    (forall x, In x before ->
               volume_lt (row_volume_oz x) (row_volume_oz r)) /\
    (forall x, In x after ->
               volume_le (row_volume_oz x) (row_volume_oz r)) /\
    row_type r = Some t /\
    primary_types_of
      (generate_table_with_cocktails_and_their_main_ingr_type
         sort_stably bar_cocktails bar_ingredients gin_and_tonic)
      "Gin and Tonic"
    = [Some t].
Proof.
  assert (H : alcoholic_rows
                (result_df sort_stably bar_cocktails bar_ingredients
                           gin_and_tonic)
                "Gin and Tonic" <> [])
    by (vm_compute; discriminate).
  split; [exact sort_stably_sorts|]. split; [exact H|].
  exact (primary_type_is_largest_typed_alcoholic
           sort_stably sort_stably_sorts
           bar_cocktails bar_ingredients gin_and_tonic "Gin and Tonic" H).
Defined.

(** After line 52 the table of the Martini example has one row, which every
    sort of line 55 leaves as it is. *)
Lemma martini_result_df (sort_values : list ResultRow -> list ResultRow) :
  sorts_by_cocktail_name sort_values ->
  result_df sort_values bar_cocktails untyped_ingredients martini_and_tonic
  = [mkRow (Some "Fortified Wine") (Some "Alcoholic") "Martini" "Vermouth"
           (Some 1%Q) None].
Proof.
  intros Hs. unfold result_df. cbv zeta.
  change (map drop_name
            (filter notna_type
               (merge_inner untyped_ingredients
                  (join_abv martini_and_tonic bar_cocktails))))
    with [mkRow (Some "Fortified Wine") (Some "Alcoholic") "Martini"
                "Vermouth" (Some 1%Q) None].
  now apply sort_values_one_row.
Qed.

(** C2, counterexample: Gin (2 oz, alcoholic, [type] missing) and Vermouth
    (1 oz, alcoholic, Fortified Wine) make a Martini; the alcoholic ingredient
    of the largest volume is Gin, yet the table lists Fortified Wine, however
    the sort of line 55 orders rows. *)
Lemma type_of_largest_alcoholic_not_assigned :
  ~ exists sort_values,
      sorts_by_cocktail_name sort_values /\
      assigns_type_of_largest_alcoholic
        sort_values bar_cocktails untyped_ingredients martini_and_tonic.
Proof.
  intros [sort_values [Hs H]].
  specialize (H "Martini"
                (mkRow None (Some "Alcoholic") "Martini" "Gin" (Some 2%Q) None)
                eq_refl).
  unfold generate_table_with_cocktails_and_their_main_ingr_type in H.
  cbv zeta in H. rewrite (martini_result_df _ Hs) in H.
  vm_compute in H. discriminate.
Qed.

Lemma cocktail_without_alcohol_is_kept_witness :
  let df := result_df sort_stably bar_cocktails bar_ingredients
                      gin_and_tonic in
  (exists r, In r df /\ row_cocktail_name r = "Lemonade") /\
  (forall r, In r df -> row_cocktail_name r = "Lemonade" ->
             is_alcoholic r = false) /\
  primary_types_of
    (generate_table_with_cocktails_and_their_main_ingr_type
       sort_stably bar_cocktails bar_ingredients gin_and_tonic) "Lemonade"
  = [None].
Proof.
  intros df.
  assert (H1 : exists r, In r df /\ row_cocktail_name r = "Lemonade").
  { exists (mkRow (Some "Mixer") (Some "Non-alcoholic") "Lemonade" "Tonic"
                  (Some 5%Q) None).
    split; [|reflexivity]. vm_compute. tauto. }
  assert (H2 : forall r, In r df -> row_cocktail_name r = "Lemonade" ->
                         is_alcoholic r = false).
  { intros r Hr Hc. vm_compute in Hr.
    repeat (destruct Hr as [<-|Hr]; [try discriminate Hc; reflexivity|]).
    destruct Hr. }
  split; [exact H1|]. split; [exact H2|].
  exact (cocktail_without_alcohol_is_kept
           sort_stably bar_cocktails bar_ingredients gin_and_tonic
           "Lemonade" H1 H2).
Defined.

(** C10, counterexample: Tonic Water is made of Tonic alone, which is in the
    ingredient table as non-alcoholic with a missing [type]; the cocktail is
    in the inner join and has no alcoholic ingredient, yet the returned table
    does not list it, however the sort of line 55 orders rows. *)
Lemma cocktail_without_alcohol_dropped :
  ~ exists sort_values,
      sorts_by_cocktail_name sort_values /\
      keeps_cocktails_without_alcohol
        sort_values bar_cocktails untyped_ingredients martini_and_tonic.
Proof.
  intros [sort_values [Hs H]]. specialize (H "Tonic Water").
  assert (H1 : exists r,
             In r (map drop_name
                     (merge_inner untyped_ingredients
                        (join_abv martini_and_tonic bar_cocktails))) /\
             row_cocktail_name r = "Tonic Water").
  { exists (mkRow None (Some "Non-alcoholic") "Tonic Water" "Tonic"
                  (Some 4%Q) None).
    split; [|reflexivity]. vm_compute. tauto. }
  assert (H2 : forall r,
             In r (map drop_name
                     (merge_inner untyped_ingredients
                        (join_abv martini_and_tonic bar_cocktails))) ->
             row_cocktail_name r = "Tonic Water" -> is_alcoholic r = false).
  { intros r Hr Hc. vm_compute in Hr.
    repeat (destruct Hr as [<-|Hr]; [try discriminate Hc; reflexivity|]).
    destruct Hr. }
  specialize (H H1 H2).
  unfold generate_table_with_cocktails_and_their_main_ingr_type in H.
  cbv zeta in H. rewrite (martini_result_df _ Hs) in H.
  vm_compute in H. discriminate.
Qed.

Lemma primary_table_lists_typed_cocktails_once_witness :
  sorts_by_cocktail_name sort_stably /\
  let out := generate_table_with_cocktails_and_their_main_ingr_type
               sort_stably bar_cocktails bar_ingredients gin_and_tonic in
  NoDup (map primary_cocktail_name out) /\
  forall c,
    In c (map primary_cocktail_name out) <->
    exists r i,
      In r gin_and_tonic /\ In i bar_ingredients /\
      ingr_name i = ingredient_name r /\ type i <> None /\
      cocktail_name r = c.
Proof.
  split; [exact sort_stably_sorts|].
  exact (primary_table_lists_typed_cocktails_once
           sort_stably sort_stably_sorts
           bar_cocktails bar_ingredients gin_and_tonic).
Defined.

Lemma primary_table_sorted_by_cocktail_witness :
  sorts_by_cocktail_name sort_stably /\
  StronglySorted (fun a b => String.ltb a b = true)
    (map primary_cocktail_name
         (generate_table_with_cocktails_and_their_main_ingr_type
            sort_stably bar_cocktails bar_ingredients gin_and_tonic)).
Proof.
  split; [exact sort_stably_sorts|].
  exact (primary_table_sorted_by_cocktail
           sort_stably sort_stably_sorts
           bar_cocktails bar_ingredients gin_and_tonic).
Defined.

Lemma primary_type_comes_from_alcoholic_ingredient_witness :
  let o := mkPrimary 0 (Some "Gin") "Gin and Tonic" in
  sorts_by_cocktail_name sort_stably /\
  In o (generate_table_with_cocktails_and_their_main_ingr_type
          sort_stably bar_cocktails bar_ingredients gin_and_tonic) /\
  primary_alcohol_type o = Some "Gin" /\
  exists i r,
    In i bar_ingredients /\ In r gin_and_tonic /\
    ingr_name i = ingredient_name r /\
    cocktail_name r = primary_cocktail_name o /\
    type i = Some "Gin" /\ generalized_type i = Some "Alcoholic".
Proof.
  intros o.
  assert (H1 : In o (generate_table_with_cocktails_and_their_main_ingr_type
                       sort_stably bar_cocktails bar_ingredients
                       gin_and_tonic))
    by (vm_compute; tauto).
  assert (H2 : primary_alcohol_type o = Some "Gin") by reflexivity.
  split; [exact sort_stably_sorts|]. split; [exact H1|]. split; [exact H2|].
  exact (primary_type_comes_from_alcoholic_ingredient
           sort_stably sort_stably_sorts
           bar_cocktails bar_ingredients gin_and_tonic o "Gin" H1 H2).
Defined.

Lemma old_index_is_first_row_of_cocktail_witness :
  let df := result_df sort_stably bar_cocktails bar_ingredients
                      gin_and_tonic in
  let o := mkPrimary 3 None "Lemonade" in
  In o (generate_table_with_cocktails_and_their_main_ingr_type
          sort_stably bar_cocktails bar_ingredients gin_and_tonic) /\
  exists r,
    nth_error df (old_index o) = Some r /\
    row_cocktail_name r = primary_cocktail_name o /\
    forall j r', nth_error df j = Some r' ->
                 row_cocktail_name r' = primary_cocktail_name o ->
                 (old_index o <= j)%nat.
Proof.
  intros df o.
  assert (H : In o (generate_table_with_cocktails_and_their_main_ingr_type
                      sort_stably bar_cocktails bar_ingredients
                      gin_and_tonic))
    by (vm_compute; tauto).
  split; [exact H|].
  exact (old_index_is_first_row_of_cocktail
           sort_stably bar_cocktails bar_ingredients gin_and_tonic o H).
Defined.

(** ** When the returned table is fixed by the ingredients alone *)







(** ** Further properties of the volume matrix *)

Lemma at_label_missing {A : Type} (labels : list string) (vals : list A)
    (x : string) :
  ~ In x labels -> at_label labels vals x = None.
Proof.
  revert vals. induction labels as [|l labels IH]; intros vals Hx;
    [now destruct vals|].
  destruct vals as [|v vals]; [reflexivity|]. cbn [at_label].
  destruct (String.eqb_spec l x) as [->|Hne]; [destruct Hx; now left|].
  apply IH. intros H. apply Hx. now right.
Qed.

Lemma sorted_labels_strict (l : list string) :
  StronglySorted (fun a b => String.ltb a b = true) (sorted_labels l).
Proof.
  apply sorted_NoDup_strict;
    [apply sorted_labels_sorted|apply sorted_labels_NoDup].
Qed.

(** X6: both axes of the volume matrix are in strictly ascending order, and
    the columns are exactly the ingredient names that occur in the
    compositions, each once. *)
Theorem volume_matrix_axes (df : list CompositionRecord) :
  let M := generate_cocktails_and_ingredients_matrix_with_volumes df in
  StronglySorted (fun a b => String.ltb a b = true) (index M) /\
  StronglySorted (fun a b => String.ltb a b = true) (columns M) /\
  NoDup (columns M) /\
  forall i, In i (columns M) <-> exists r, In r df /\ ingredient_name r = i.
Proof.
  intros M. subst M. rewrite volume_matrix_index, volume_matrix_columns.
  repeat split; try apply sorted_labels_strict; try apply sorted_labels_NoDup.
  - rewrite sorted_labels_In, in_map_iff. intros [r [Hi Hr]]. now exists r.
  - rewrite sorted_labels_In, in_map_iff. intros [r [Hr Hi]]. now exists r.
Qed.

Lemma volume_matrix_key_error (df : list CompositionRecord) (c i : string) :
  ~ (In c (map cocktail_name df) /\ In i (map ingredient_name df)) ->
  loc (generate_cocktails_and_ingredients_matrix_with_volumes df) c i = None.
Proof.
  intros Hno. unfold loc.
  destruct (in_dec string_dec c (map cocktail_name df)) as [Hc|Hc].
  - assert (Hi : ~ In i (map ingredient_name df)) by tauto.
    destruct (at_label _ _ c) as [row|]; [|reflexivity].
    apply at_label_missing.
    now rewrite volume_matrix_columns, sorted_labels_In.
  - rewrite at_label_missing; [reflexivity|].
    now rewrite volume_matrix_index, sorted_labels_In.
Qed.

(** X7: a lookup in the volume matrix yields a number, never a missing
    value, when the cocktail and the ingredient both occur in the
    compositions (not necessarily together), and fails with a key error
    otherwise. *)
Theorem volume_matrix_lookup (df : list CompositionRecord) (c i : string) :
  let M := generate_cocktails_and_ingredients_matrix_with_volumes df in
  (In c (map cocktail_name df) /\ In i (map ingredient_name df) ->
   exists v, loc M c i = Some (Some v)) /\
  (~ (In c (map cocktail_name df) /\ In i (map ingredient_name df)) ->
   loc M c i = None).
Proof.
  intros M. subst M. split.
  - intros [Hc Hi]. rewrite (volume_matrix_loc df c i Hc Hi).
    destruct (mean _) as [v|]; cbn [fillna_cell]; eauto.
  - apply volume_matrix_key_error.
Qed.

Lemma Permutation_filter_rows {A : Type} (p : A -> bool) (l l' : list A) :
  Permutation l l' -> Permutation (filter p l) (filter p l').
Proof.
  induction 1 as [|x l l' H IH|x y l|l l' l'' H1 IH1 H2 IH2]; cbn [filter].
  - constructor.
  - destruct (p x); [now constructor|exact IH].
  - destruct (p x), (p y); try reflexivity. apply perm_swap.
  - now transitivity (filter p l').
Qed.

Lemma sorted_labels_same_members (l l' : list string) :
  (forall x, In x l <-> In x l') -> sorted_labels l = sorted_labels l'.
Proof.
  intros H. apply strictly_sorted_ext; try apply sorted_labels_strict.
  intros x. now rewrite !sorted_labels_In.
Qed.

Lemma Permutation_map_In {A B : Type} (f : A -> B) (l l' : list A) (y : B) :
  Permutation l l' -> (In y (map f l) <-> In y (map f l')).
Proof.
  intros H. split; apply Permutation_in; [|symmetry];
    now apply Permutation_map.
Qed.

(** X8: the labels of the volume matrix and their order do not depend on the
    order of the composition rows, and neither does any cell whose
    (cocktail, ingredient) pair occurs in at most one row: reordering the
    rows can only touch the cells that average several rows. *)
Theorem volume_matrix_labels_ignore_row_order
    (df df' : list CompositionRecord) :
  Permutation df df' ->
  let M := generate_cocktails_and_ingredients_matrix_with_volumes df in
  let M' := generate_cocktails_and_ingredients_matrix_with_volumes df' in
  index M = index M' /\
  columns M = columns M' /\
  forall c i,
    (List.length (filter (same_key c i) df) <= 1)%nat ->
    loc M c i = loc M' c i.
Proof.
  intros H M M'. subst M M'.
  rewrite !volume_matrix_index, !volume_matrix_columns.
  split; [|split].
  - apply sorted_labels_same_members. intros x.
    now apply Permutation_map_In.
  - apply sorted_labels_same_members. intros x.
    now apply Permutation_map_In.
  - intros c i Hone.
    destruct (in_dec string_dec c (map cocktail_name df)) as [Hc|Hc];
      [destruct (in_dec string_dec i (map ingredient_name df)) as [Hi|Hi]|].
    + rewrite (volume_matrix_loc df c i Hc Hi).
      rewrite (volume_matrix_loc df' c i)
        by (eapply Permutation_map_In; [symmetry|]; eassumption).
      do 2 f_equal. unfold mean. rewrite !notna_group_fillna.
      unfold filled_volumes.
      pose proof (Permutation_filter_rows (same_key c i) _ _ H) as Hf.
      destruct (filter (same_key c i) df) as [|r [|r' rest]].
      * apply Permutation_nil in Hf. now rewrite Hf.
      * apply Permutation_length_1_inv in Hf. now rewrite Hf.
      * cbn in Hone. lia.
    + rewrite !volume_matrix_key_error; [reflexivity| |tauto].
      intros [_ Hi']. apply Hi.
      eapply Permutation_map_In; eassumption.
    + rewrite !volume_matrix_key_error; [reflexivity| |tauto].
      intros [Hc' _]. apply Hc.
      eapply Permutation_map_In; eassumption.
Qed.

Lemma volume_matrix_labels_ignore_row_order_witness :
  Permutation negroni_twice (rev negroni_twice) /\
  let M := generate_cocktails_and_ingredients_matrix_with_volumes
             negroni_twice in
  let M' := generate_cocktails_and_ingredients_matrix_with_volumes
              (rev negroni_twice) in
  index M = index M' /\
  columns M = columns M' /\
  forall c i,
    (List.length (filter (same_key c i) negroni_twice) <= 1)%nat ->
    loc M c i = loc M' c i.
Proof.
  assert (H : Permutation negroni_twice (rev negroni_twice))
    by apply Permutation_rev.
  split; [exact H|].
  exact (volume_matrix_labels_ignore_row_order
           negroni_twice (rev negroni_twice) H).
Defined.

(** X10: when a (cocktail, ingredient) pair occurs in exactly one composition
    row, its cell holds the volume of that row, or 0.01 when that volume is
    missing. *)
Theorem volume_matrix_single_row (df : list CompositionRecord)
    (c i : string) (r : CompositionRecord) :
  filter (same_key c i) df = [r] ->
  exists w,
    loc (generate_cocktails_and_ingredients_matrix_with_volumes df) c i
      = Some (Some w) /\
    (w == match volume_oz r with Some v => v | None => 1 # 100 end)%Q.
Proof.
  intros Hf.
  assert (Hr : In r (filter (same_key c i) df)) by (rewrite Hf; now left).
  apply filter_In in Hr. destruct Hr as [Hr Hk]. apply same_key_iff in Hk.
  rewrite volume_matrix_loc by (destruct Hk; subst; now apply in_map).
  unfold mean. rewrite notna_group_fillna. unfold filled_volumes.
  rewrite Hf. cbn [map fillna_cell Qsum fold_right List.length].
  eexists. split; [reflexivity|]. rewrite Qred_correct.
  change (inject_Z (Z.of_nat 1)) with 1%Q. field.
Qed.

Lemma volume_matrix_single_row_witness :
  filter (same_key "Americano" "Campari") negroni_twice
  = [mkComposition "Americano" "Campari" (Some (3 # 2)%Q)] /\
  exists w,
    loc (generate_cocktails_and_ingredients_matrix_with_volumes negroni_twice)
        "Americano" "Campari" = Some (Some w) /\ (w == 3 # 2)%Q.
Proof.
  assert (H : filter (same_key "Americano" "Campari") negroni_twice
              = [mkComposition "Americano" "Campari" (Some (3 # 2)%Q)])
    by reflexivity.
  split; [exact H|].
  exact (volume_matrix_single_row negroni_twice "Americano" "Campari" _ H).
Defined.

(** ** The style matrix *)

Lemma present_In (col : list (option string)) (v : string) :
  In v (present col) <-> In (Some v) col.
Proof.
  induction col as [|[w|] col IH]; cbn [present In]; [tauto| |].
  - rewrite IH. split; intros [H|H]; auto; left; congruence.
  - rewrite IH. split; [auto|]. intros [H|H]; [discriminate|exact H].
Qed.

Lemma has_missing_In (col : list (option string)) :
  has_missing col = true <-> In None col.
Proof.
  unfold has_missing. rewrite existsb_exists. split.
  - intros [[v|] [Hin H]]; [discriminate|exact Hin].
  - intros H. now exists None.
Qed.

Lemma categories_In (col : list (option string)) (v : option string) :
  In v (categories col) <-> In v col.
Proof.
  unfold categories. rewrite in_app_iff, in_map_iff. split.
  - intros [[s [<- Hs]]|H].
    + now apply present_In, sorted_labels_In.
    + destruct (has_missing col) eqn:Hm; [|destruct H].
      destruct H as [<-|[]]. now apply has_missing_In.
  - intros H. destruct v as [s|].
    + left. exists s. split; [reflexivity|].
      now apply sorted_labels_In, present_In.
    + right. apply has_missing_In in H. rewrite H. now left.
Qed.

Lemma categories_NoDup (col : list (option string)) :
  NoDup (categories col).
Proof.
  unfold categories.
  assert (Hs : NoDup (map Some (sorted_labels (present col)))).
  { apply Finite.Injective_map_NoDup; [|apply sorted_labels_NoDup].
    intros a b H. now injection H. }
  destruct (has_missing col); [|now rewrite app_nil_r].
  apply NoDup_app; [exact Hs|repeat constructor; intros []|].
  intros x Hx [<-|[]]. apply in_map_iff in Hx.
  now destruct Hx as [s [Hs' _]].
Qed.

Lemma indicator_other (cats : list (option string)) (v : option string) :
  ~ In v cats ->
  one_hot_encode cats v = repeat 0%Q (List.length cats).
Proof.
  induction cats as [|a cats IH]; intros H; [reflexivity|].
  cbn [one_hot_encode map List.length repeat]. unfold indicator at 1.
  destruct (option_string_eqb a v) eqn:E.
  - apply option_string_eqb_eq in E. destruct H. now left.
  - f_equal. apply IH. intros Hin. apply H. now right.
Qed.

Lemma one_hot_encode_one_hot (cats : list (option string))
    (v : option string) :
  NoDup cats -> In v cats -> one_hot (one_hot_encode cats v).
Proof.
  induction 1 as [|a cats Ha Hnd IH]; intros Hv; [destruct Hv|].
  cbn [one_hot_encode map]. unfold indicator at 1.
  destruct (option_string_eqb a v) eqn:E.
  - apply option_string_eqb_eq in E. subst a.
    exists 0%nat, (List.length cats). cbn [repeat app]. f_equal.
    now apply indicator_other.
  - destruct Hv as [->|Hv];
      [rewrite (proj2 (option_string_eqb_eq v v) eq_refl) in E; discriminate|].
    destruct (IH Hv) as [before [after Heq]].
    exists (S before), after. cbn [repeat app]. f_equal. exact Heq.
Qed.

Lemma one_hot_encode_injective (cats : list (option string))
    (v v' : option string) :
  In v cats -> one_hot_encode cats v = one_hot_encode cats v' -> v = v'.
Proof.
  induction cats as [|a cats IH]; intros Hv Heq; [destruct Hv|].
  cbn [one_hot_encode map] in Heq. injection Heq as Ha Hrest.
  destruct Hv as [->|Hv]; [|now apply IH].
  unfold indicator in Ha.
  rewrite (proj2 (option_string_eqb_eq v v) eq_refl) in Ha.
  destruct (option_string_eqb v v') eqn:E; [|discriminate].
  now apply option_string_eqb_eq.
Qed.

Lemma app_eq_by_length {A : Type} (l1 l1' l2 l2' : list A) :
  List.length l1 = List.length l1' ->
  l1 ++ l2 = l1' ++ l2' -> l1 = l1' /\ l2 = l2'.
Proof.
  revert l1'. induction l1 as [|a l1 IH]; intros [|a' l1'] Hlen Heq;
    try discriminate; [now split|].
  cbn in Heq. injection Heq as -> Heq. injection Hlen as Hlen.
  destruct (IH _ Hlen Heq) as [-> ->]. now split.
Qed.

Lemma style_matrix_some (cocktails : list CocktailRecord) (M : StyleMatrix) :
  generate_table_with_cocktails_and_style cocktails = Some M ->
  style_values M
  = map (fun c =>
           one_hot_encode (categories (map glass cocktails)) (glass c)
           ++ one_hot_encode (categories (map prep_method cocktails))
                             (prep_method c)
           ++ one_hot_encode (categories (map strength cocktails))
                             (strength c))
        cocktails.
Proof.
  destruct cocktails as [|c0 cs]; [discriminate|].
  unfold generate_table_with_cocktails_and_style.
  intros H. now injection H as <-.
Qed.

Lemma categories_count (col : list (option string)) :
  List.length (categories col) = distinct_values col.
Proof.
  unfold distinct_values. apply Permutation_length.
  apply NoDup_Permutation; [apply categories_NoDup|apply NoDup_nodup|].
  intros v. now rewrite categories_In, nodup_In.
Qed.

Lemma feature_names_In (feature label : string)
    (col : list (option string)) :
  In label (map (feature_name feature) (categories col)) <->
  exists v, In v col /\ label = feature_name feature v.
Proof.
  rewrite in_map_iff. split.
  - intros [v [<- Hv]]. exists v. split; [now apply categories_In|easy].
  - intros [v [Hv ->]]. exists v. split; [easy|now apply categories_In].
Qed.

(** X11: the style matrix of a table with at least one cocktail has one row
    per cocktail and every row has one entry per column.  There are as many
    columns as there are distinct values of [glass], plus distinct values of
    [prep_method], plus distinct values of [strength] among the cocktails (a
    missing value counting as a value), and the column labels are exactly the
    names [glass_<v>], [prep_method_<v>], [strength_<v>] of the values that
    some cocktail has.  A table without rows gives an error and no matrix. *)
Theorem style_matrix_shape (cocktails : list CocktailRecord) :
  (cocktails = [] -> generate_table_with_cocktails_and_style cocktails = None)
  /\
  (cocktails <> [] ->
   exists M,
     generate_table_with_cocktails_and_style cocktails = Some M /\
     List.length (style_values M) = List.length cocktails /\
     List.length (style_columns M)
     = (distinct_values (map glass cocktails)
        + distinct_values (map prep_method cocktails)
        + distinct_values (map strength cocktails))%nat /\
     Forall (fun row => List.length row = List.length (style_columns M))
            (style_values M) /\
     forall label,
       In label (style_columns M) <->
       exists c,
         In c cocktails /\
         (label = feature_name "glass" (glass c) \/
          label = feature_name "prep_method" (prep_method c) \/
          label = feature_name "strength" (strength c))).
Proof.
  split; [now intros ->|]. intros Hne.
  destruct cocktails as [|c0 cs]; [now destruct Hne|].
  set (cocktails := c0 :: cs).
  eexists. split; [reflexivity|]. cbn [style_values style_columns].
  fold cocktails.
  split; [now rewrite length_map|]. split; [|split].
  - rewrite !length_app, !length_map, !categories_count. lia.
  - apply Forall_forall. intros row Hrow. apply in_map_iff in Hrow.
    destruct Hrow as [c [<- _]]. unfold one_hot_encode.
    now rewrite !length_app, !length_map.
  - intros label. rewrite !in_app_iff, !feature_names_In. split.
    + intros [[v [Hv ->]] | [[v [Hv ->]] | [v [Hv ->]]]];
        apply in_map_iff in Hv; destruct Hv as [c [<- Hc]];
        exists c; auto.
    + intros [c [Hc [-> | [-> | ->]]]].
      * left. exists (glass c). split; [now apply in_map|reflexivity].
      * right. left. exists (prep_method c).
        split; [now apply in_map|reflexivity].
      * right. right. exists (strength c).
        split; [now apply in_map|reflexivity].
Qed.

(** X12: every row of the style matrix is three one-hot blocks side by side:
    exactly one 1 among the [glass] columns, exactly one among the
    [prep_method] columns and exactly one among the [strength] columns, and 0
    everywhere else. *)
Theorem style_matrix_rows_are_one_hot (cocktails : list CocktailRecord)
    (M : StyleMatrix) (k : nat) (c : CocktailRecord) :
  generate_table_with_cocktails_and_style cocktails = Some M ->
  nth_error cocktails k = Some c ->
  exists g p s,
    nth_error (style_values M) k = Some (g ++ p ++ s) /\
    List.length g = List.length (categories (map glass cocktails)) /\
    List.length p = List.length (categories (map prep_method cocktails)) /\
    List.length s = List.length (categories (map strength cocktails)) /\
    one_hot g /\ one_hot p /\ one_hot s.
Proof.
  intros HM Hk.
  assert (Hc : In c cocktails) by (eapply nth_error_In; eassumption).
  rewrite (style_matrix_some _ _ HM), nth_error_map, Hk. cbn [option_map].
  do 3 eexists. split; [reflexivity|].
  unfold one_hot_encode at 1 2 3. rewrite !length_map.
  repeat split; apply one_hot_encode_one_hot;
    try apply categories_NoDup; apply categories_In; now apply in_map.
Qed.

Lemma style_matrix_rows_are_one_hot_witness :
  let M := mkStyle
             ["glass_Highball"; "glass_Rocks"; "prep_method_Build";
              "prep_method_Stir"; "prep_method_nan"; "strength_Strong";
              "strength_Weak"]
             [[0; 1; 0; 1; 0; 1; 0]; [1; 0; 1; 0; 0; 0; 1];
              [1; 0; 0; 0; 1; 0; 1]]%Q in
  let c := mkCocktail "Mojito" (Some "Highball") None (Some "Weak") None in
  generate_table_with_cocktails_and_style three_cocktails = Some M /\
  nth_error three_cocktails 2 = Some c /\
  exists g p s,
    nth_error (style_values M) 2 = Some (g ++ p ++ s) /\
    List.length g = List.length (categories (map glass three_cocktails)) /\
    List.length p
    = List.length (categories (map prep_method three_cocktails)) /\
    List.length s = List.length (categories (map strength three_cocktails)) /\
    one_hot g /\ one_hot p /\ one_hot s.
Proof.
  intros M c.
  assert (H1 : generate_table_with_cocktails_and_style three_cocktails
               = Some M) by (vm_compute; reflexivity).
  assert (H2 : nth_error three_cocktails 2 = Some c) by reflexivity.
  split; [exact H1|]. split; [exact H2|].
  exact (style_matrix_rows_are_one_hot three_cocktails M 2 c H1 H2).
Defined.

(** X13: the encoding loses nothing and adds nothing: two cocktails of the
    table have the same row in the style matrix exactly when they have the
    same [glass], the same [prep_method] and the same [strength]. *)
Theorem style_matrix_rows_equal_iff (cocktails : list CocktailRecord)
    (M : StyleMatrix) (k1 k2 : nat) (c1 c2 : CocktailRecord)
    (row1 row2 : list Q) :
  generate_table_with_cocktails_and_style cocktails = Some M ->
  nth_error cocktails k1 = Some c1 ->
  nth_error cocktails k2 = Some c2 ->
  nth_error (style_values M) k1 = Some row1 ->
  nth_error (style_values M) k2 = Some row2 ->
  (row1 = row2 <->
   glass c1 = glass c2 /\ prep_method c1 = prep_method c2 /\
   strength c1 = strength c2).
Proof.
  intros HM H1 H2 Hr1 Hr2.
  assert (Hc1 : In c1 cocktails) by (eapply nth_error_In; eassumption).
  rewrite (style_matrix_some _ _ HM) in Hr1, Hr2.
  rewrite nth_error_map, H1 in Hr1. rewrite nth_error_map, H2 in Hr2.
  cbn [option_map] in Hr1, Hr2. injection Hr1 as <-. injection Hr2 as <-.
  split.
  - intros Heq.
    apply app_eq_by_length in Heq;
      [|unfold one_hot_encode; now rewrite !length_map].
    destruct Heq as [Hg Heq].
    apply app_eq_by_length in Heq;
      [|unfold one_hot_encode; now rewrite !length_map].
    destruct Heq as [Hp Hs].
    repeat split; eapply one_hot_encode_injective; try eassumption;
      apply categories_In; now apply in_map.
  - intros [-> [-> ->]]. reflexivity.
Qed.

Lemma style_matrix_rows_equal_iff_witness :
  let M := mkStyle
             ["glass_Highball"; "glass_Rocks"; "prep_method_Build";
              "prep_method_Stir"; "prep_method_nan"; "strength_Strong";
              "strength_Weak"]
             [[0; 1; 0; 1; 0; 1; 0]; [1; 0; 1; 0; 0; 0; 1];
              [1; 0; 0; 0; 1; 0; 1]]%Q in
  let c1 := mkCocktail "Gin and Tonic" (Some "Highball") (Some "Build")
                       (Some "Weak") (Some (8 # 1)%Q) in
  let c2 := mkCocktail "Mojito" (Some "Highball") None (Some "Weak") None in
  generate_table_with_cocktails_and_style three_cocktails = Some M /\
  nth_error three_cocktails 1 = Some c1 /\
  nth_error three_cocktails 2 = Some c2 /\
  nth_error (style_values M) 1 = Some [1; 0; 1; 0; 0; 0; 1]%Q /\
  nth_error (style_values M) 2 = Some [1; 0; 0; 0; 1; 0; 1]%Q /\
  ([1; 0; 1; 0; 0; 0; 1]%Q = [1; 0; 0; 0; 1; 0; 1]%Q <->
   glass c1 = glass c2 /\ prep_method c1 = prep_method c2 /\
   strength c1 = strength c2).
Proof.
  intros M c1 c2.
  assert (H0 : generate_table_with_cocktails_and_style three_cocktails
               = Some M) by (vm_compute; reflexivity).
  assert (H1 : nth_error three_cocktails 1 = Some c1) by reflexivity.
  assert (H2 : nth_error three_cocktails 2 = Some c2) by reflexivity.
  assert (H3 : nth_error (style_values M) 1 = Some [1; 0; 1; 0; 0; 0; 1]%Q)
    by reflexivity.
  assert (H4 : nth_error (style_values M) 2 = Some [1; 0; 0; 0; 1; 0; 1]%Q)
    by reflexivity.
  repeat (split; [assumption|]).
  exact (style_matrix_rows_equal_iff three_cocktails M 1 2 c1 c2 _ _
           H0 H1 H2 H3 H4).
Defined.
